(** * dqnroute: routers of the packet-routing simulation

    A shallow embedding of [src/dqnroute/router.py]: the base [Router]
    (packet forwarding with per-link serialisation), [LinkStateRouter]
    (flooding of link-state announcements) and [QRouter]/[SimpleQRouter]
    (tabular Q-routing with reward messages).

    Conventions of the embedding.
    - Logical time, sizes, latencies, bandwidths and value estimates are
      Python numbers; they are modelled as exact rationals [Q], with
      Python's [/] raising [ZeroDivisionError] on a zero divisor.  The
      source computes them in binary64, rounding every operation: the
      properties stated on [Q] are equalities with the code's own
      expressions, or orderings that rounding keeps.  [Binary64] evaluates
      the link times in binary64 itself, to show an ordering that rounding
      does not keep.
    - A Python [dict] is an insertion-ordered association list ([Dict]);
      subscripting a missing key raises [KeyError].
    - A method is a function from the object's state to a [run]: the state
      it leaves behind, the messages it emitted, and whether it returned or
      raised.  As in Python, what was mutated and sent before a [raise]
      stays mutated and sent. *)

From Stdlib Require Import QArith Qminmax List String Bool Arith Lia Lqa.
From Stdlib Require DecimalNat DecimalString.
From Stdlib Require Floats.
Import ListNotations.

Set Implicit Arguments.

(** ** Addresses and numbers *)

(** Node addresses of the simulated network ([message.network_addr], the keys
    of [network] and [neighbors]). *)
Definition node := nat.

(** Actor handles of the actor framework ([sender], [self.myAddress], the
    values of [network]).  [network_inv] is keyed by [str(target)]; a handle
    is identified with its printed form. *)
Definition actor := nat.

Definition pkg_id := nat.

(** Python's [max(a, b)]: the first argument unless the second is larger. *)
Definition py_max (a b : Q) : Q := if Qle_bool b a then a else b.

(** ** Exceptions and outcomes *)

(** Built-in exception classes raised by the modelled code. *)
Inductive pyexn : Type :=
| KeyError
| TypeError
| ValueError
| ZeroDivisionError
| PyException (msg : string).

(** Exceptions leaving [Router.processEvent]: the router's own
    [RouterNotInitialized], raised only at the gate of [processEvent], or a
    built-in one. *)
Inductive exn : Type :=
| RouterNotInitialized
| Builtin (e : pyexn).

Inductive outcome (E A : Type) : Type :=
| Ok (a : A)
| Raise (e : E).
Arguments Ok {E A} a.
Arguments Raise {E A} e.

(** One execution of a method on a state of type [St]. *)
Record run (St Act E A : Type) : Type := Run {
  after : St;
  emitted : list Act;
  result : outcome E A
}.
Arguments Run {St Act E A} after emitted result.

Definition M (St Act E A : Type) : Type := St -> run St Act E A.

Section Monad.
Context {St Act E : Type}.

Definition ret {A} (a : A) : M St Act E A := fun s => Run s [] (Ok a).

Definition bind {A B} (m : M St Act E A) (f : A -> M St Act E B) : M St Act E B :=
  fun s =>
    let r := m s in
    match result r with
    | Ok a => let r' := f a (after r) in
              Run (after r') (emitted r ++ emitted r') (result r')
    | Raise e => Run (after r) (emitted r) (Raise e)
    end.

Definition raise {A} (e : E) : M St Act E A := fun s => Run s [] (Raise e).
Definition get : M St Act E St := fun s => Run s [] (Ok s).
Definition put (s : St) : M St Act E unit := fun _ => Run s [] (Ok tt).
Definition emit (a : Act) : M St Act E unit := fun s => Run s [a] (Ok tt).

(** A pure computation that may raise. *)
Definition lift_outcome {A} (o : outcome E A) : M St Act E A :=
  fun s => Run s [] o.

(** [for x in xs: body(x)] *)
Fixpoint for_each {A} (xs : list A) (body : A -> M St Act E unit) : M St Act E unit :=
  match xs with
  | [] => ret tt
  | x :: xs' => bind (body x) (fun _ => for_each xs' body)
  end.
End Monad.

Declare Scope py_scope.
Delimit Scope py_scope with py.
Notation "x <- c ;; k" := (bind c (fun x => k))
  (at level 61, c at next level, right associativity) : py_scope.
Notation "c ;; k" := (bind c (fun _ => k))
  (at level 61, right associativity) : py_scope.
Local Open Scope py_scope.

(** Python's true division. *)
Definition py_div (a b : Q) : outcome pyexn Q :=
  if Qeq_bool b 0 then Raise ZeroDivisionError else Ok (a / b)%Q.

(** ** Dictionaries *)

Module Dict.
Section Dict.
Variable V : Type.

Definition t : Type := list (nat * V).

Definition empty : t := [].

(** [d[k]]; [None] stands for [KeyError]. *)
Fixpoint lookup (k : nat) (d : t) : option V :=
  match d with
  | [] => None
  | (k', v) :: d' => if Nat.eqb k k' then Some v else lookup k d'
  end.

(** [d[k] = v]: an existing key keeps its place, a new key goes last. *)
Fixpoint store (k : nat) (v : V) (d : t) : t :=
  match d with
  | [] => [(k, v)]
  | (k', v') :: d' =>
      if Nat.eqb k k' then (k, v) :: d' else (k', v') :: store k v d'
  end.

(** [del d[k]]; [None] stands for [KeyError]. *)
Fixpoint delete (k : nat) (d : t) : option t :=
  match d with
  | [] => None
  | (k', v') :: d' =>
      if Nat.eqb k k' then Some d'
      else match delete k d' with
           | Some d'' => Some ((k', v') :: d'')
           | None => None
           end
  end.

Definition keys (d : t) : list nat := map fst d.
Definition values (d : t) : list V := map snd d.
Definition items (d : t) : list (nat * V) := d.

(** An association list stands for a dict when no key is repeated. *)
Definition wf (d : t) : Prop := NoDup (keys d).
End Dict.
Arguments empty {V}.
End Dict.

Definition dict : Type -> Type := Dict.t.

(** [d[k]] inside a method. *)
Definition subscript {St Act V} (d : dict V) (k : nat) : M St Act pyexn V :=
  match Dict.lookup k d with
  | Some v => ret v
  | None => raise KeyError
  end.

(** ** Messages *)

(** One cell of a route-trace row. *)
Inductive cell : Type :=
| CNum (q : Q)
| CAddr (a : option node)
| CId (i : pkg_id).

(** A row appended by [pkg.route_add(data, cols)]; [None] is Python's
    [None], which the base class's [_currentStateData] and
    [_currentStateCols] return. *)
Record route_row : Type := RouteRow {
  row_data : option (list cell);
  row_cols : option (list string)
}.

Record Package : Type := mkPackage {
  id : pkg_id;
  src : node;
  dst : node;
  size : Q;
  route : list route_row
}.

(** [Package.route_add] is defined in [messages.py], outside this file's
    sources; it appends a row to the route trace. *)
Definition route_add (pkg : Package) (data : option (list cell))
    (cols : option (list string)) : Package :=
  mkPackage (id pkg) (src pkg) (dst pkg) (size pkg)
            (route pkg ++ [RouteRow data cols]).

Inductive event : Type :=
| IncomingPkgEvent (time : Q) (sender : actor) (contents : Package)
| ProcessPkgEvent (time : Q) (sender : actor) (contents : Package)
| LinkBreakMsg (neighbor : node)
| LinkRestoreMsg (neighbor : node)
| OtherEvent.

(** The link states advertised by an announcement: neighbour and weight. *)
Definition ls_snapshot := list (node * Q).

Inductive service_msg : Type :=
| LinkStateAnnouncement (seq_num : nat) (from_addr : node) (links : ls_snapshot)
| SimpleRewardMsg (pkg : pkg_id) (cur_time : Q) (estimate : Q) (rdst : node)
| RewardMsg (pkg : pkg_id)   (* a [RewardMsg] that is not a [SimpleRewardMsg] *)
| OtherServiceMsg.

Record PkgDoneMsg : Type := mkPkgDoneMsg {
  done_time : Q;
  done_router : actor;
  done_pkg : Package
}.

Inductive log_line : Type :=
| RoutesPackage (router : option node) (to : node)
| UnexpectedRewardMsg.

(** What a strategy hook may emit: service messages and log lines. *)
Inductive hook_action : Type :=
| HSendServiceMsg (target : actor) (m : service_msg)
| HPrint (l : log_line).

(** What a router emits. *)
Inductive action : Type :=
| SendEvent (target : actor) (e : event)          (* [self.sendEvent] *)
| SendServiceMsg (target : actor) (m : service_msg)  (* [self.sendServiceMsg] *)
| Send (target : option actor) (m : PkgDoneMsg)   (* [self.send] *)
| Print (l : log_line).

Definition lift_action (a : hook_action) : action :=
  match a with
  | HSendServiceMsg t m => SendServiceMsg t m
  | HPrint l => Print l
  end.

(** ** The base Router *)

Record link_params : Type := mkLinkParams {
  latency : Q;
  bandwidth : Q
}.

Record link_state : Type := mkLinkState {
  transfer_time : Q;
  alive : bool
}.

(** The fields of [Router] (and of [TimeActor]: [current_time],
    [event_queue], [myAddress]); [ext] holds the fields a subclass adds. *)
Record Router (S : Type) : Type := mkRouter {
  overlord : option actor;
  addr : option node;
  network : dict actor;
  network_inv : dict node;
  neighbors : dict link_params;
  pkg_process_delay : Q;
  queue_time : Q;
  link_states : dict link_state;
  full_log : bool;
  current_time : Q;
  event_queue : list event;
  myAddress : actor;
  ext : S
}.

Section Setters.
Context {S : Type}.

Definition set_queue_time (r : Router S) (q : Q) : Router S :=
  mkRouter (overlord r) (addr r) (network r) (network_inv r) (neighbors r)
           (pkg_process_delay r) q (link_states r) (full_log r)
           (current_time r) (event_queue r) (myAddress r) (ext r).

Definition set_link_states (r : Router S) (l : dict link_state) : Router S :=
  mkRouter (overlord r) (addr r) (network r) (network_inv r) (neighbors r)
           (pkg_process_delay r) (queue_time r) l (full_log r)
           (current_time r) (event_queue r) (myAddress r) (ext r).

Definition set_event_queue (r : Router S) (q : list event) : Router S :=
  mkRouter (overlord r) (addr r) (network r) (network_inv r) (neighbors r)
           (pkg_process_delay r) (queue_time r) (link_states r) (full_log r)
           (current_time r) q (myAddress r) (ext r).

Definition set_ext {S'} (r : Router S) (x : S') : Router S' :=
  mkRouter (overlord r) (addr r) (network r) (network_inv r) (neighbors r)
           (pkg_process_delay r) (queue_time r) (link_states r) (full_log r)
           (current_time r) (event_queue r) (myAddress r) x.
End Setters.

(** A method of a subclass: it reads the whole router and may mutate only
    the subclass's own fields, emit service messages and log lines, and
    raise built-in exceptions.  Every override in the source has this
    shape. *)
Definition hook (S A : Type) : Type := Router S -> run S hook_action pyexn A.

(** The overridable methods of [Router]. *)
Record Strategy (S : Type) : Type := mkStrategy {
  isInitialized : Router S -> bool;
  receivePackage : actor -> Package -> hook S unit;
  routePackage : Package -> hook S (option node);
  sendToBrokenLink : Package -> hook S unit;
  breakLink : node -> hook S unit;
  restoreLink : node -> hook S unit;
  currentStateData : Package -> hook S (option (list cell));
  currentStateCols : hook S (option (list string))
}.

(** [Router.isInitialized] *)
Definition Router_isInitialized {S} (r : Router S) : bool :=
  match overlord r with Some _ => true | None => false end.

(** A method body that is [pass]: it returns [None]. *)
Definition pass {S A} (none : A) : hook S A := fun r => Run (ext r) [] (Ok none).

(** The base class's own methods. *)
Definition Router_strategy (S : Type) : Strategy S :=
  mkStrategy (@Router_isInitialized S)
             (fun _ _ => pass tt) (fun _ => pass None) (fun _ => pass tt)
             (fun _ => pass tt) (fun _ => pass tt)
             (fun _ => pass None) (pass None).

Section Router.
Context {S : Type}.
Variable strat : Strategy S.

Definition RM (A : Type) : Type := M (Router S) action exn A.

(** Calling an overridable method on [self]. *)
Definition call {A} (h : hook S A) : RM A :=
  fun r =>
    let x := h r in
    Run (set_ext r (after x)) (map lift_action (emitted x))
        (match result x with Ok a => Ok a | Raise e => Raise (Builtin e) end).

(** A step of the base class that may raise a built-in exception. *)
Definition builtin {A} (m : M (Router S) action pyexn A) : RM A :=
  fun r =>
    let x := m r in
    Run (after x) (emitted x)
        (match result x with Ok a => Ok a | Raise e => Raise (Builtin e) end).

(** [self.event_queue.push(e)].  [EventQueue] lives in [time_actor.py],
    outside this file's sources; the model records the pushes in call
    order. *)
Definition push (e : event) : RM unit :=
  fun r => Run (set_event_queue r (event_queue r ++ [e])) [] (Ok tt).

(** [Router.reportPkgDone] *)
Definition reportPkgDone (pkg : Package) (time : Q) : RM unit :=
  r <- get ;;
  emit (Send (overlord r) (mkPkgDoneMsg time (myAddress r) pkg)).

(** The part of the [ProcessPkgEvent] branch that follows the choice of
    [best_neighbor]. *)
Definition transmit (n : node) (pkg : Package) : RM unit :=
  r <- get ;;
  ls <- builtin (subscript (link_states r) n) ;;
  if alive ls then
    target <- builtin (subscript (network r) n) ;;
    params <- builtin (subscript (neighbors r) n) ;;
    let link_latency := latency params in
    let link_bandwidth := bandwidth params in
    let transfer_start_time := py_max (current_time r) (transfer_time ls) in
    quot <- builtin (lift_outcome (py_div (size pkg) link_bandwidth)) ;;
    let transfer_end_time := (transfer_start_time + quot)%Q in
    let finish_time := (transfer_end_time + link_latency)%Q in
    put (set_link_states r
           (Dict.store n (mkLinkState transfer_end_time (alive ls))
                       (link_states r))) ;;
    emit (SendEvent target (IncomingPkgEvent finish_time (myAddress r) pkg))
  else
    call (sendToBrokenLink strat pkg).

(** The [else] branch of [if pkg.dst == self.addr]. *)
Definition forward (pkg : Package) : RM unit :=
  best_neighbor <- call (routePackage strat pkg) ;;
  match best_neighbor with
  | None => raise (Builtin KeyError)   (* [self.link_states[None]] *)
  | Some n => transmit n pkg
  end.

(** The part of the [ProcessPkgEvent] branch that precedes
    [if pkg.dst == self.addr]: the package is received, its route trace
    extended, and a line printed. *)
Definition receive_and_trace (sender : actor) (contents : Package) : RM Package :=
  call (receivePackage strat sender contents) ;;
  r <- get ;;
  pkg <- (if full_log r then
            data <- call (currentStateData strat contents) ;;
            cols <- call (currentStateCols strat) ;;
            ret (route_add contents data cols)
          else
            ret (route_add contents
                   (Some [CNum (current_time r); CAddr (addr r)])
                   (Some ["time"%string; "cur_node"%string]))) ;;
  emit (Print (RoutesPackage (addr r) (dst pkg))) ;;
  ret pkg.

(** [pkg.dst == self.addr] *)
Definition is_for_me (r : Router S) (pkg : Package) : bool :=
  match addr r with
  | Some a => Nat.eqb (dst pkg) a
  | None => false
  end.

(** The body of [Router.processEvent] behind the initialisation gate. *)
Definition dispatch (ev : event) : RM unit :=
  match ev with
  | IncomingPkgEvent _ sender contents =>
      r <- get ;;
      let qt := (py_max (current_time r) (queue_time r) + pkg_process_delay r)%Q in
      put (set_queue_time r qt) ;;
      push (ProcessPkgEvent qt sender contents)
  | ProcessPkgEvent _ sender contents =>
      pkg <- receive_and_trace sender contents ;;
      r <- get ;;
      if is_for_me r pkg
      then reportPkgDone pkg (current_time r)
      else forward pkg
  | LinkBreakMsg n =>
      r <- get ;;
      ls <- builtin (subscript (link_states r) n) ;;
      put (set_link_states r
             (Dict.store n (mkLinkState (transfer_time ls) false) (link_states r))) ;;
      call (breakLink strat n)
  | LinkRestoreMsg n =>
      r <- get ;;
      ls <- builtin (subscript (link_states r) n) ;;
      put (set_link_states r
             (Dict.store n (mkLinkState (transfer_time ls) true) (link_states r))) ;;
      call (restoreLink strat n)
  | OtherEvent => ret tt
  end.

(** [Router.processEvent] *)
Definition processEvent (ev : event) : RM unit :=
  fun r =>
    if negb (isInitialized strat r)
    then Run r [] (Raise RouterNotInitialized)
    else dispatch ev r.
End Router.

(** ** QRouter and SimpleQRouter *)

(** [dict_min(dct)]: [min(dct.items(), key=lambda x: x[1])], the first item
    of least value; [min] raises [ValueError] on an empty sequence. *)
Fixpoint min_from (best : nat * Q) (rest : list (nat * Q)) : nat * Q :=
  match rest with
  | [] => best
  | x :: rest' =>
      min_from (if Qle_bool (snd best) (snd x) then best else x) rest'
  end.

Definition dict_min (dct : dict Q) : outcome pyexn (nat * Q) :=
  match Dict.items dct with
  | [] => Raise ValueError
  | x :: rest => Ok (min_from x rest)
  end.

(** The fields [QRouter] and [SimpleQRouter] add.  [Qtable] is the source's
    [self.Q]; a pending state is the tuple [(current_time, pkg.dst)] made
    by [getState]. *)
Record SimpleQ : Type := mkSimpleQ {
  reward_pending : dict (Q * node);
  Qtable : dict (dict Q);
  learning_rate : option Q;
  broken_link_Qs : dict (dict Q);
  steps : nat
}.

Definition set_reward_pending (s : SimpleQ) (p : dict (Q * node)) : SimpleQ :=
  mkSimpleQ p (Qtable s) (learning_rate s) (broken_link_Qs s) (steps s).
Definition set_Qtable (s : SimpleQ) (q : dict (dict Q)) : SimpleQ :=
  mkSimpleQ (reward_pending s) q (learning_rate s) (broken_link_Qs s) (steps s).
Definition set_broken_link_Qs (s : SimpleQ) (b : dict (dict Q)) : SimpleQ :=
  mkSimpleQ (reward_pending s) (Qtable s) (learning_rate s) b (steps s).

(** The large value an unknown or broken route is given. *)
Definition sentinel : Q := 100500.

(** [RouterInitMsg]; [init_learning_rate] is present when the message is a
    [SimpleQRouterInitMsg]. *)
Record RouterInitMsg : Type := mkRouterInitMsg {
  network_addr : node;
  init_neighbors : dict link_params;
  init_network : dict actor;
  init_pkg_process_delay : Q;
  init_full_log : bool;
  init_learning_rate : option Q
}.

(** [Router.__init__]; the actor framework supplies [myAddress]. *)
Definition Router_new {S} (me : actor) (x : S) : Router S :=
  mkRouter None None Dict.empty Dict.empty Dict.empty 0 0 Dict.empty false
           0 [] me x.

(** [Router.initialize] for a [RouterInitMsg] *)
Definition Router_initialize {S} (message : RouterInitMsg) (sender : actor)
    (r : Router S) : Router S :=
  mkRouter (Some sender) (Some (network_addr message))
           (init_network message)
           (fold_left (fun inv item => Dict.store (snd item) (fst item) inv)
                      (Dict.items (init_network message)) Dict.empty)
           (init_neighbors message)
           (init_pkg_process_delay message)
           (queue_time r)
           (fold_left (fun ls n => Dict.store n (mkLinkState 0 true) ls)
                      (Dict.keys (init_neighbors message)) (link_states r))
           (init_full_log message)
           (current_time r) (event_queue r) (myAddress r) (ext r).

Module SimpleQRouter.

Definition QM (A : Type) : Type := M SimpleQ hook_action pyexn A.

(** [SimpleQRouter.__init__] *)
Definition new (me : actor) : Router SimpleQ :=
  Router_new me (mkSimpleQ Dict.empty Dict.empty None Dict.empty 0).

(** [SimpleQRouter.initialize] *)
Definition initialize (message : RouterInitMsg) (sender : actor)
    (r : Router SimpleQ) : Router SimpleQ :=
  let r1 := Router_initialize message sender r in
  match init_learning_rate message with
  | None => r1
  | Some lr =>
      let fill_row (n : node) :=
        fold_left (fun row k =>
                     Dict.store k (if Nat.eqb k n then 40%Q else 100500%Q) row)
                  (Dict.keys (neighbors r1)) Dict.empty in
      let q := fold_left (fun q n => Dict.store n (fill_row n) q)
                         (Dict.keys (network r1)) (Qtable (ext r1)) in
      set_ext r1 (mkSimpleQ (reward_pending (ext r1)) q (Some lr)
                            (broken_link_Qs (ext r1)) (steps (ext r1)))
  end.

Section Methods.
(** The base-class fields of [self], which these methods only read. *)
Variable self : Router SimpleQ.

(** [self.Q[n][v] = val] *)
Definition set_Q_entry (n v : node) (val : Q) : QM unit :=
  s <- get ;;
  row <- subscript (Qtable s) n ;;
  put (set_Qtable s (Dict.store n (Dict.store v val row) (Qtable s))).

(** The loop of [breakLink], with the local [broken_Qs] threaded
    through. *)
Fixpoint breakLink_loop (v : node) (ns : list node) (broken_Qs : dict Q)
    : QM (dict Q) :=
  match ns with
  | [] => ret broken_Qs
  | n :: ns' =>
      s <- get ;;
      row <- subscript (Qtable s) n ;;
      val <- subscript row v ;;
      set_Q_entry n v sentinel ;;
      breakLink_loop v ns' (Dict.store n val broken_Qs)
  end.

Definition breakLink (v : node) : QM unit :=
  broken_Qs <- breakLink_loop v (Dict.keys (network self)) Dict.empty ;;
  s <- get ;;
  put (set_broken_link_Qs s (Dict.store v broken_Qs (broken_link_Qs s))).

Definition restoreLink (v : node) : QM unit :=
  s <- get ;;
  broken_Qs <- subscript (broken_link_Qs s) v ;;
  for_each (Dict.items broken_Qs)
           (fun item => set_Q_entry (fst item) v (snd item)) ;;
  s' <- get ;;
  match Dict.delete v (broken_link_Qs s') with
  | Some b => put (set_broken_link_Qs s' b)
  | None => raise KeyError
  end.

Definition mkRewardMsg (pkg : Package) : QM service_msg :=
  let d := dst pkg in
  s <- get ;;
  best_estimate <-
    (if match addr self with Some a => Nat.eqb a d | None => false end
     then ret 0%Q
     else row <- subscript (Qtable s) d ;;
          best <- lift_outcome (dict_min row) ;;
          ret (snd best)) ;;
  ret (SimpleRewardMsg (id pkg) (current_time self) best_estimate d).

(** [QRouter.receivePackage] *)
Definition receivePackage (sender : actor) (pkg : Package) : QM unit :=
  m <- mkRewardMsg pkg ;;
  emit (HSendServiceMsg sender m).

Definition getState (pkg : Package) : Q * node :=
  (current_time self, dst pkg).

Definition act (state : Q * node) : QM node :=
  let d := snd state in
  s <- get ;;
  row <- subscript (Qtable s) d ;;
  best <- lift_outcome (dict_min row) ;;
  ret (fst best).

(** [QRouter.routePackage] *)
Definition routePackage (pkg : Package) : QM (option node) :=
  let state := getState pkg in
  s <- get ;;
  put (set_reward_pending s (Dict.store (id pkg) state (reward_pending s))) ;;
  n <- act state ;;
  ret (Some n).

(** What [prev_state] holds in [QRouter.receiveServiceMsg]: the integer
    [0] it is initialised with, or the pending state tuple. *)
Inductive prev_state_val : Type :=
| PrevInt0
| PrevState (state : Q * node).

Definition mkSample (message : service_msg) (prev_state : prev_state_val)
    (sender : actor) : QM (node * node * Q) :=
  match message with
  | SimpleRewardMsg _ cur_time estimate d =>
      sender_addr <- subscript (network_inv self) sender ;;
      sent_time <- match prev_state with
                   | PrevState state => ret (fst state)
                   | PrevInt0 => raise TypeError   (* [0[0]] *)
                   end ;;
      let new_estimate := (estimate + (cur_time - sent_time))%Q in
      ret (d, sender_addr, new_estimate)
  | _ => raise (PyException "Unsupported type of reward msg!")
  end.

Definition observe (sample : node * node * Q) : QM unit :=
  let '(d, sender_addr, new_estimate) := sample in
  s <- get ;;
  row <- subscript (Qtable s) d ;;
  old <- subscript row sender_addr ;;
  match learning_rate s with
  | None => raise TypeError   (* [None * number] *)
  | Some lr =>
      let delta := (lr * (new_estimate - old))%Q in
      put (set_Qtable s (Dict.store d (Dict.store sender_addr (old + delta)%Q row)
                                    (Qtable s)))
  end.

Definition currentStateData (pkg : Package) : QM (option (list cell)) :=
  ret (Some [CNum (current_time self); CId (id pkg)]).

Definition currentStateCols : QM (option (list string)) :=
  ret (Some ["time"%string; "pkg_id"%string]).

(** [QRouter.receiveServiceMsg].  The call to the superclass's method
    ([TimeActor], outside this file's sources) is taken to do nothing. *)
Definition receiveServiceMsg (message : service_msg) (sender : actor)
    : QM unit :=
  match message with
  | SimpleRewardMsg p _ _ _ | RewardMsg p =>
      s <- get ;;
      prev_state <- match Dict.lookup p (reward_pending s) with
                    | Some state => ret (PrevState state)
                    | None => emit (HPrint UnexpectedRewardMsg) ;;
                              ret PrevInt0
                    end ;;
      sample <- mkSample message prev_state sender ;;
      observe sample
  | _ => ret tt
  end.
End Methods.

(** A method called on the router itself. *)
Definition on_self {A} (m : Router SimpleQ -> QM A) : hook SimpleQ A :=
  fun r => m r (ext r).

Definition strategy : Strategy SimpleQ :=
  mkStrategy (@Router_isInitialized SimpleQ)
             (fun sender pkg => on_self (fun self => receivePackage self sender pkg))
             (fun pkg => on_self (fun self => routePackage self pkg))
             (fun _ => pass tt)
             (fun v => on_self (fun self => breakLink self v))
             (fun v => on_self (fun _ => restoreLink v))
             (fun pkg => on_self (fun self => currentStateData self pkg))
             (on_self (fun _ => currentStateCols)).

(** Delivery of a service message to the router. *)
Definition deliverServiceMsg (message : service_msg) (sender : actor)
    : M (Router SimpleQ) action exn unit :=
  call (on_self (fun self => receiveServiceMsg self message sender)).

End SimpleQRouter.

(** ** LinkStateRouter *)

(** The fields [LinkStateHolder] adds: the sequence counter, the highest
    sequence number seen per origin and the derived topology graph (the
    links last advertised by each origin). *)
Record LinkState : Type := mkLinkStateHolder {
  seq_num : nat;
  announcements : dict nat;
  network_graph : dict ls_snapshot
}.

Module LinkStateRouter.

Definition LM (A : Type) : Type := M LinkState hook_action pyexn A.

(** Whether sequence number [seq] is newer than the last one seen. *)
Definition newer (seq : nat) (last_seen : option nat) : bool :=
  match last_seen with
  | None => true
  | Some s => Nat.ltb s seq
  end.

(** Modelled from the spec: [LinkStateHolder.processLSAnnouncement] is
    defined in [router_mixins.py], which is not among the sources.  The
    spec's flooding rule: an announcement is accepted and applied to the
    local topology graph iff its sequence number is newer than the
    last-seen sequence for that origin; the router holds the highest
    sequence number seen per origin plus a derived topology graph.  The
    method returns whether the announcement was accepted. *)
Definition processLSAnnouncement (message : service_msg) (nodes : list node)
    : LM bool :=
  match message with
  | LinkStateAnnouncement seq origin links =>
      s <- get ;;
      if newer seq (Dict.lookup origin (announcements s)) then
        put (mkLinkStateHolder (seq_num s)
               (Dict.store origin seq (announcements s))
               (Dict.store origin links (network_graph s))) ;;
        ret true
      else ret false
  | _ => ret false
  end.

Section Methods.
Variable self : Router LinkState.

(** [LinkStateRouter._broadcastAnnouncement] *)
Definition _broadcastAnnouncement (announcement : service_msg) (sender : actor)
    : LM unit :=
  for_each (Dict.keys (neighbors self))
           (fun n =>
              target <- subscript (network self) n ;;
              if negb (Nat.eqb sender target)
              then emit (HSendServiceMsg target announcement)
              else ret tt).

(** [LinkStateRouter.receiveServiceMsg].  The call to the superclass's
    method ([TimeActor], outside this file's sources) is taken to do
    nothing. *)
Definition receiveServiceMsg (message : service_msg) (sender : actor) : LM unit :=
  match message with
  | LinkStateAnnouncement _ _ _ =>
      accepted <- processLSAnnouncement message (Dict.keys (network self)) ;;
      if accepted then _broadcastAnnouncement message sender else ret tt
  | _ => ret tt
  end.
End Methods.

(** Delivery of a service message to the router. *)
Definition deliverServiceMsg (message : service_msg) (sender : actor)
    (r : Router LinkState) : run (Router LinkState) action exn unit :=
  let x := receiveServiceMsg r message sender (ext r) in
  Run (set_ext r (after x)) (map lift_action (emitted x))
      (match result x with Ok a => Ok a | Raise e => Raise (Builtin e) end).

End LinkStateRouter.

(** ** Runs of several inputs *)

Definition set_current_time {S} (r : Router S) (t : Q) : Router S :=
  mkRouter (overlord r) (addr r) (network r) (network_inv r) (neighbors r)
           (pkg_process_delay r) (queue_time r) (link_states r) (full_log r)
           t (event_queue r) (myAddress r) (ext r).

(** What happens to a router between two moments: its clock is moved (by
    [TimeActor], before an event is dispatched), an event is processed, or a
    service message is delivered. *)
Inductive input : Type :=
| Clock (t : Q)
| Event (ev : event)
| Service (m : service_msg) (sender : actor).

Definition SimpleQRouter_handle (i : input) (r : Router SimpleQ) : Router SimpleQ :=
  match i with
  | Clock t => set_current_time r t
  | Event ev => after (processEvent SimpleQRouter.strategy ev r)
  | Service m sender => after (SimpleQRouter.deliverServiceMsg m sender r)
  end.

(** The state after a sequence of inputs; an input whose handling raises
    leaves the state as it was at the [raise]. *)
Definition SimpleQRouter_handle_all (inputs : list input) (r : Router SimpleQ)
    : Router SimpleQ :=
  fold_left (fun r i => SimpleQRouter_handle i r) inputs r.

(** Whether an input is a break or a restore of the link to [v]. *)
Definition touches_link (v : node) (i : input) : bool :=
  match i with
  | Event (LinkBreakMsg n) | Event (LinkRestoreMsg n) => Nat.eqb n v
  | _ => false
  end.

Definition LinkStateRouter_deliver_all (msgs : list (service_msg * actor))
    (r : Router LinkState) : Router LinkState :=
  fold_left (fun r m => after (LinkStateRouter.deliverServiceMsg (fst m) (snd m) r))
            msgs r.

(** The neighbours an announcement received from [sender] is passed on to. *)
Definition flood_targets (r : Router LinkState) (sender : actor) : list actor :=
  filter (fun target => negb (Nat.eqb sender target))
         (flat_map (fun n => match Dict.lookup n (network r) with
                             | Some target => [target]
                             | None => []
                             end)
                   (Dict.keys (neighbors r))).

(** ** Observations on what a router emits *)

(** A completion report to the overlord. *)
Definition is_report (a : action) : bool :=
  match a with Send _ _ => true | _ => false end.

(** A packet event scheduled on another router. *)
Definition is_packet_event (a : action) : bool :=
  match a with SendEvent _ _ => true | _ => false end.

(** Neither of the two: a service message or a log line. *)
Definition quiet (a : action) : bool := negb (is_report a) && negb (is_packet_event a).

(** ** A small network

    Three nodes [0 - 1 - 2] in a line, every link of latency 1 and bandwidth
    10; the router under study is node 1, its actor is [101], the overlord
    is actor [999]. *)

Definition line_link : link_params := mkLinkParams 1 10.

Definition line_init (lr : Q) : RouterInitMsg :=
  mkRouterInitMsg 1%nat
    [(0%nat, line_link); (2%nat, line_link)]
    [(0%nat, 100%nat); (1%nat, 101%nat); (2%nat, 102%nat)]
    0 false (Some lr).

(** Node 1 before and after its initialisation message. *)
Definition fresh_router : Router SimpleQ := SimpleQRouter.new 101%nat.

Definition line_router : Router SimpleQ :=
  SimpleQRouter.initialize (line_init (1 # 2)) 999%nat fresh_router.

(** A package from node 0 for node 2, and one for node 1 itself. *)
Definition pkg_to_2 : Package := mkPackage 7%nat 0%nat 2%nat 5 [].
Definition pkg_to_1 : Package := mkPackage 8%nat 0%nat 1%nat 5 [].

(** The same network with the link from node 1 to node 2 of bandwidth 0. *)
Definition stalled_init : RouterInitMsg :=
  mkRouterInitMsg 1%nat
    [(0%nat, line_link); (2%nat, mkLinkParams 1 0)]
    [(0%nat, 100%nat); (1%nat, 101%nat); (2%nat, 102%nat)]
    0 false (Some (1 # 2)).

Definition stalled_router : Router SimpleQ :=
  SimpleQRouter.initialize stalled_init 999%nat fresh_router.

(** A package for node 2 whose size is negative. *)
Definition pkg_negative : Package := mkPackage 9%nat 0%nat 2%nat (-5) [].

(** Node 1 once it has forwarded [pkg_to_2]. *)
Definition line_router_busy : Router SimpleQ :=
  after (processEvent SimpleQRouter.strategy
           (ProcessPkgEvent 0 100%nat pkg_to_2) line_router).

(** A second package for node 2. *)
Definition pkg_second : Package := mkPackage 10%nat 0%nat 2%nat 3 [].

(** [Q[n][k]] *)
Definition Q_entry (n k : node) (q : dict (dict Q)) : option Q :=
  match Dict.lookup n q with
  | Some row => Dict.lookup k row
  | None => None
  end.

(** A service message sent to another router. *)
Definition is_service_msg (a : action) : bool :=
  match a with SendServiceMsg _ _ => true | _ => false end.

(** The [pkg_id] of a reward message. *)
Definition reward_pkg_id (m : service_msg) : option pkg_id :=
  match m with
  | SimpleRewardMsg p _ _ _ | RewardMsg p => Some p
  | _ => None
  end.

(** Node 1 as a link-state router that has seen no announcement yet. *)
Definition ls_router : Router LinkState :=
  Router_initialize (line_init 0) 999%nat
    (Router_new 101%nat (mkLinkStateHolder 0 Dict.empty Dict.empty)).

(** The first announcement of node 0: its one link, to node 1. *)
Definition announcement_of_0 : service_msg :=
  LinkStateAnnouncement 0 0%nat [(1%nat, 1)].

(** What node 1 handles while its link to node 2 is broken: a package for
    node 2, a reward from node 2 for it, a tick of the clock and the break
    of the other link. *)
Definition while_broken : list input :=
  [Event (ProcessPkgEvent 0 100%nat pkg_to_2);
   Service (SimpleRewardMsg 7%nat 3 0 2%nat) 102%nat;
   Clock 4;
   Event (LinkBreakMsg 0%nat)].

(** Node 1 once its link to node 0 is broken, and a package for node 0. *)
Definition line_router_cut : Router SimpleQ :=
  after (processEvent SimpleQRouter.strategy (LinkBreakMsg 0%nat) line_router).

Definition pkg_to_0 : Package := mkPackage 11%nat 2%nat 0%nat 5 [].

(** ** Helpers at the end of the module *)

(** Python's [str(k)] for a non-negative integer: its decimal digits. *)
Definition py_str (k : nat) : string :=
  DecimalString.NilZero.string_of_uint (Nat.to_uint k).

(** [mk_num_list(s, n)]: [s + str(k)] for [k] in [range(0, n)]; the range is
    empty when [n] is not positive. *)
Definition mk_num_list (s : string) (n : Z) : list string :=
  map (fun k => String.append s (py_str k)) (seq 0 (Z.to_nat n)).

(** What numpy raises in [mk_unary_arr]. *)
Inductive numpy_error : Type :=
| NegativeDimensions   (* [ValueError] of [np.zeros] *)
| IndexError.

(** [np.zeros(n)] *)
Definition np_zeros (n : Z) : outcome numpy_error (list Q) :=
  if (n <? 0)%Z then Raise NegativeDimensions else Ok (repeat 0%Q (Z.to_nat n)).

(** The position an integer index [p] denotes in an array of length [len]:
    a negative index counts from the end. *)
Definition np_index (len : nat) (p : Z) : outcome numpy_error nat :=
  if ((0 <=? p) && (p <? Z.of_nat len))%Z then Ok (Z.to_nat p)
  else if ((- Z.of_nat len <=? p) && (p <? 0))%Z then Ok (Z.to_nat (p + Z.of_nat len))
  else Raise IndexError.

(** [res[i] = x] at a position that exists. *)
Fixpoint write (i : nat) (x : Q) (res : list Q) : list Q :=
  match res, i with
  | [], _ => []
  | _ :: res', O => x :: res'
  | y :: res', S i' => y :: write i' x res'
  end.

(** [for p in pts: res[p] = 1] *)
Fixpoint mark (res : list Q) (pts : list Z) : outcome numpy_error (list Q) :=
  match pts with
  | [] => Ok res
  | p :: pts' =>
      match np_index (List.length res) p with
      | Ok i => mark (write i 1%Q res) pts'
      | Raise e => Raise e
      end
  end.

(** [mk_unary_arr(n, *pts)] *)
Definition mk_unary_arr (n : Z) (pts : list Z) : outcome numpy_error (list Q) :=
  match np_zeros n with
  | Ok res => mark res pts
  | Raise e => Raise e
  end.

(** ** The link times in binary64

    The arithmetic of the alive branch of [Router.processEvent]
    ([transfer_start_time], [transfer_end_time], [finish_time]) on Python
    floats, which are IEEE 754 binary64 numbers. *)

Module Binary64.
Import PrimFloat.
Local Open Scope float_scope.

(** Python's [max(a, b)]: [b] only where it is greater. *)
Definition py_max (a b : float) : float := if ltb a b then b else a.

(** [(transfer_end_time, finish_time)] *)
Definition link_times
    (current_time transfer_time size link_bandwidth link_latency : float)
  : float * float :=
  let transfer_start_time := py_max current_time transfer_time in
  let transfer_end_time := transfer_start_time + size / link_bandwidth in
  let finish_time := transfer_end_time + link_latency in
  (transfer_end_time, finish_time).
End Binary64.

(** * Properties *)

(** ** Dictionaries *)

Section DictFacts.
Context {V : Type}.
Implicit Types (d : dict V) (k : nat) (v : V).

Lemma lookup_store_same k v d : Dict.lookup k (Dict.store k v d) = Some v.
Proof.
  induction d as [|[k' v'] d IH]; simpl.
  - now rewrite Nat.eqb_refl.
  - destruct (Nat.eqb k k') eqn:E; simpl.
    + now rewrite Nat.eqb_refl.
    + now rewrite E.
Qed.

Lemma lookup_store_other k k' v d :
  k <> k' -> Dict.lookup k' (Dict.store k v d) = Dict.lookup k' d.
Proof.
  intros Hne. induction d as [|[k0 v0] d IH]; simpl.
  - destruct (Nat.eqb_spec k' k); congruence.
  - destruct (Nat.eqb_spec k k0) as [->|Hk]; simpl.
    + destruct (Nat.eqb_spec k' k0); congruence.
    + destruct (Nat.eqb_spec k' k0); auto.
Qed.

Lemma lookup_store k k' v d :
  Dict.lookup k' (Dict.store k v d)
  = if Nat.eqb k k' then Some v else Dict.lookup k' d.
Proof.
  destruct (Nat.eqb_spec k k') as [->|Hne].
  - apply lookup_store_same.
  - now apply lookup_store_other.
Qed.

Lemma lookup_delete_other k k' d d' :
  Dict.delete k d = Some d' -> k <> k' -> Dict.lookup k' d' = Dict.lookup k' d.
Proof.
  revert d'. induction d as [|[k0 v0] d IH]; simpl; intros d' Hdel Hne.
  - discriminate.
  - destruct (Nat.eqb_spec k k0) as [->|Hk].
    + injection Hdel as <-. destruct (Nat.eqb_spec k' k0); congruence.
    + destruct (Dict.delete k d) as [d''|] eqn:E; [|discriminate].
      injection Hdel as <-. simpl.
      destruct (Nat.eqb_spec k' k0); auto.
Qed.

Lemma delete_present k d v :
  Dict.lookup k d = Some v -> exists d', Dict.delete k d = Some d'.
Proof.
  induction d as [|[k0 v0] d IH]; simpl; intros H.
  - discriminate.
  - destruct (Nat.eqb k k0); [eauto|].
    destruct (IH H) as [d' ->]. eauto.
Qed.

Lemma lookup_in_keys k d :
  In k (Dict.keys d) <-> exists v, Dict.lookup k d = Some v.
Proof.
  induction d as [|[k0 v0] d IH]; simpl.
  - split; [tauto | intros [v H]; discriminate].
  - destruct (Nat.eqb_spec k k0) as [->|Hne].
    + split; eauto.
    + rewrite <- IH. split; [intros [H|H]; [congruence|auto] | auto].
Qed.

Lemma lookup_in_items k v d : Dict.lookup k d = Some v -> In (k, v) (Dict.items d).
Proof.
  induction d as [|[k0 v0] d IH]; simpl; intros H.
  - discriminate.
  - destruct (Nat.eqb_spec k k0) as [->|Hne].
    + injection H as ->. now left.
    + right. auto.
Qed.

Lemma keys_store_present k v d :
  In k (Dict.keys d) -> Dict.keys (Dict.store k v d) = Dict.keys d.
Proof.
  induction d as [|[k0 v0] d IH]; simpl; intros H.
  - tauto.
  - destruct (Nat.eqb_spec k k0) as [->|Hne]; simpl.
    + reflexivity.
    + f_equal. apply IH. destruct H; congruence.
Qed.
End DictFacts.

(** ** Numbers *)


Lemma py_max_ge_r a b : (b <= py_max a b)%Q.
Proof.
  unfold py_max. destruct (Qle_bool b a) eqn:E.
  - now apply Qle_bool_iff.
  - apply Qle_refl.
Qed.

Lemma py_div_nonzero a b : ~ (b == 0)%Q -> py_div a b = Ok (a / b)%Q.
Proof.
  intros H. unfold py_div. destruct (Qeq_bool b 0) eqn:E; [|reflexivity].
  apply Qeq_bool_iff in E. contradiction.
Qed.

Lemma py_div_zero a b : (b == 0)%Q -> py_div a b = Raise ZeroDivisionError.
Proof.
  intros H. unfold py_div. apply Qeq_bool_iff in H. now rewrite H.
Qed.

Lemma quotient_nonneg a b : (0 <= a)%Q -> (0 < b)%Q -> (0 <= a / b)%Q.
Proof.
  intros Ha Hb. unfold Qdiv.
  apply Qmult_le_0_compat; [assumption|].
  apply Qlt_le_weak. now apply Qinv_lt_0_compat.
Qed.

(** ** The base Router *)

Section RouterFacts.
Context {S : Type}.
Variable strat : Strategy S.

(** A hook leaves every field of the base class as it was. *)
Definition same_base (r r' : Router S) : Prop := r' = set_ext r (ext r').

Lemma same_base_refl r : same_base r r.
Proof. destruct r; reflexivity. Qed.

Lemma same_base_trans r1 r2 r3 : same_base r1 r2 -> same_base r2 r3 -> same_base r1 r3.
Proof. unfold same_base. intros H1 H2. rewrite H2 at 1. rewrite H1 at 1. reflexivity. Qed.

Lemma call_same_base A (h : hook S A) r : same_base r (after (call h r)).
Proof. reflexivity. Qed.

Lemma quiet_lifted (o : list hook_action) :
  forallb quiet (map lift_action o) = true.
Proof. induction o as [|[] o IH]; simpl; auto. Qed.

Lemma receive_and_trace_spec sender c r :
  let x := receive_and_trace strat sender c r in
  same_base r (after x)
  /\ forallb quiet (emitted x) = true
  /\ result x <> Raise RouterNotInitialized
  /\ (forall pkg, result x = Ok pkg -> exists data cols, pkg = route_add c data cols).
Proof.
  unfold receive_and_trace, bind, call, get, emit, ret. cbn.
  destruct (receivePackage strat sender c r) as [s1 o1 [[]|e]]; cbn.
  2:{ repeat split; try discriminate. apply quiet_lifted. }
  destruct (full_log r); cbn.
  - destruct (currentStateData strat c _) as [s2 o2 [data|e]]; cbn.
    2:{ repeat split; try discriminate.
        rewrite forallb_app, !quiet_lifted. reflexivity. }
    destruct (currentStateCols strat _) as [s3 o3 [cols|e]]; cbn.
    2:{ repeat split; try discriminate.
        rewrite !forallb_app, !quiet_lifted. reflexivity. }
    repeat split; try discriminate.
    + rewrite !forallb_app, !quiet_lifted. reflexivity.
    + intros pkg [= <-]. eauto.
  - repeat split; try discriminate.
    + rewrite !forallb_app, !quiet_lifted. reflexivity.
    + intros pkg [= <-]. eauto.
Qed.

Lemma same_base_fields r r' :
  same_base r r' ->
  overlord r' = overlord r /\ addr r' = addr r /\ network r' = network r
  /\ neighbors r' = neighbors r /\ link_states r' = link_states r
  /\ current_time r' = current_time r /\ event_queue r' = event_queue r
  /\ myAddress r' = myAddress r /\ queue_time r' = queue_time r.
Proof. intros ->. cbn. repeat split. Qed.

(** *** The initialisation gate *)

Definition gate_free {A} (m : @RM S A) : Prop :=
  forall r, result (m r) <> Raise RouterNotInitialized.

Lemma gate_free_bind A B (m : @RM S A) (f : A -> @RM S B) :
  gate_free m -> (forall a, gate_free (f a)) -> gate_free (bind m f).
Proof.
  intros Hm Hf r. unfold bind.
  destruct (result (m r)) as [a|e] eqn:E; cbn.
  - apply Hf.
  - intros [= ->]. now apply (Hm r).
Qed.

Lemma gate_free_call A (h : hook S A) : gate_free (call h).
Proof. intros r. unfold call; cbn. destruct (result (h r)); discriminate. Qed.

Lemma gate_free_builtin A (m : M (Router S) action pyexn A) : gate_free (builtin m).
Proof. intros r. unfold builtin; cbn. destruct (result (m r)); discriminate. Qed.

Ltac gate_free_step :=
  first
    [ apply gate_free_call
    | apply gate_free_builtin
    | apply gate_free_bind; [|intro]
    | (intros ?; discriminate)
    | match goal with
      | |- gate_free (if ?b then _ else _) => destruct b
      | |- gate_free (match ?o with Some _ => _ | None => _ end) => destruct o
      end ].

Lemma gate_free_transmit n pkg : gate_free (transmit strat n pkg).
Proof. unfold transmit. repeat gate_free_step. Qed.

Lemma gate_free_forward pkg : gate_free (forward strat pkg).
Proof.
  unfold forward. repeat gate_free_step.
Qed.

Lemma gate_free_dispatch ev : gate_free (dispatch strat ev).
Proof.
  destruct ev; cbn [dispatch].
  - repeat gate_free_step.
  - apply gate_free_bind.
    + intros r. apply receive_and_trace_spec.
    + intros pkg. unfold reportPkgDone. repeat gate_free_step.
  - repeat gate_free_step.
  - repeat gate_free_step.
  - repeat gate_free_step.
Qed.

(** *** Forwarding *)

Lemma after_bind A B (m : @RM S A) (f : A -> @RM S B) r :
  after (bind m f r)
  = match result (m r) with
    | Ok a => after (f a (after (m r)))
    | Raise _ => after (m r)
    end.
Proof. unfold bind. destruct (result (m r)); reflexivity. Qed.

Lemma transmit_alive n pkg r ls target params :
  Dict.lookup n (link_states r) = Some ls ->
  alive ls = true ->
  Dict.lookup n (network r) = Some target ->
  Dict.lookup n (neighbors r) = Some params ->
  ~ (bandwidth params == 0)%Q ->
  let transfer_end_time :=
    (py_max (current_time r) (transfer_time ls) + size pkg / bandwidth params)%Q in
  transmit strat n pkg r
  = Run (set_link_states r
           (Dict.store n (mkLinkState transfer_end_time true) (link_states r)))
        [SendEvent target
           (IncomingPkgEvent (transfer_end_time + latency params)%Q (myAddress r) pkg)]
        (Ok tt).
Proof.
  intros Hls Halive Htarget Hparams Hbw.
  unfold transmit, bind, get, builtin, subscript, lift_outcome, put, emit, ret.
  cbn. rewrite Hls. cbn. rewrite Halive. cbn. rewrite Htarget. cbn.
  rewrite Hparams. cbn. rewrite (py_div_nonzero _ Hbw). reflexivity.
Qed.

Lemma transmit_zero_bandwidth n pkg r ls target params :
  Dict.lookup n (link_states r) = Some ls ->
  alive ls = true ->
  Dict.lookup n (network r) = Some target ->
  Dict.lookup n (neighbors r) = Some params ->
  (bandwidth params == 0)%Q ->
  transmit strat n pkg r = Run r [] (Raise (Builtin ZeroDivisionError)).
Proof.
  intros Hls Halive Htarget Hparams Hbw.
  unfold transmit, bind, get, builtin, subscript, lift_outcome, put, emit, ret.
  cbn. rewrite Hls. cbn. rewrite Halive. cbn. rewrite Htarget. cbn.
  rewrite Hparams. cbn. rewrite (py_div_zero _ Hbw). reflexivity.
Qed.

(** Handling a [ProcessPkgEvent] whose package is for another node, when
    the hooks return: what precedes [transmit] only changes subclass
    fields and emits [o1 ++ o2]. *)
Lemma processEvent_forward t sender contents r r1 o1 pkg r2 o2 n :
  isInitialized strat r = true ->
  receive_and_trace strat sender contents r = Run r1 o1 (Ok pkg) ->
  is_for_me r pkg = false ->
  call (routePackage strat pkg) r1 = Run r2 o2 (Ok (Some n)) ->
  processEvent strat (ProcessPkgEvent t sender contents) r
  = let x := transmit strat n pkg r2 in
    Run (after x) (o1 ++ o2 ++ emitted x) (result x).
Proof.
  intros Hinit Hrecv Hme Hroute.
  assert (Hbase : same_base r r1).
  { pose proof (receive_and_trace_spec sender contents r) as H.
    rewrite Hrecv in H. apply H. }
  unfold processEvent. rewrite Hinit. cbn [negb dispatch].
  unfold bind at 1. rewrite Hrecv. cbn.
  replace (is_for_me r1 pkg) with (is_for_me r pkg).
  2:{ unfold is_for_me. destruct (same_base_fields Hbase) as (_ & -> & _).
      reflexivity. }
  rewrite Hme. unfold forward, bind. rewrite Hroute. cbn.
  destruct (result (transmit strat n pkg r2)); reflexivity.
Qed.

(** C8. An event delivered to a router that is not initialised raises
    [RouterNotInitialized] with the router exactly as it was and nothing
    emitted; processing an event on an initialised router never raises
    [RouterNotInitialized]. *)
Theorem C8_initialisation_gate (ev : event) (r : Router S) :
  (isInitialized strat r = false ->
   processEvent strat ev r = Run r [] (Raise RouterNotInitialized))
  /\ (isInitialized strat r = true ->
      result (processEvent strat ev r) <> Raise RouterNotInitialized).
Proof.
  unfold processEvent. split; intros ->; cbn.
  - reflexivity.
  - apply gate_free_dispatch.
Qed.
End RouterFacts.

Lemma C8_initialisation_gate_witness :
  processEvent SimpleQRouter.strategy (IncomingPkgEvent 3 100%nat pkg_to_2) fresh_router
  = Run fresh_router [] (Raise RouterNotInitialized)
  /\ result (processEvent SimpleQRouter.strategy (LinkRestoreMsg 2%nat) line_router)
     <> Raise RouterNotInitialized.
Proof.
  split.
  - apply (C8_initialisation_gate SimpleQRouter.strategy). reflexivity.
  - apply (C8_initialisation_gate SimpleQRouter.strategy). reflexivity.
Defined.


(** ** Forwarding and delivery *)

Section Forwarding.
Context {S : Type}.
Variable strat : Strategy S.

(** Handling [ProcessPkgEvent(_, sender, contents)] in state [r] gets as far
    as choosing neighbour [n]: the router is initialised, the hooks called
    on the way return, the traced package [pkg] is for another node and
    [routePackage] returns [n].  [r2] is the router at that moment and [pre]
    what has been emitted so far. *)
Definition routes_to (r : Router S) (sender : actor) (contents : Package)
    (n : node) (r2 : Router S) (pre : list action) (pkg : Package) : Prop :=
  isInitialized strat r = true
  /\ exists r1 o1 o2,
      receive_and_trace strat sender contents r = Run r1 o1 (Ok pkg)
      /\ is_for_me r pkg = false
      /\ call (routePackage strat pkg) r1 = Run r2 o2 (Ok (Some n))
      /\ pre = o1 ++ o2.

Lemma routes_to_same_base r sender contents n r2 pre pkg :
  routes_to r sender contents n r2 pre pkg ->
  same_base r r2 /\ size pkg = size contents /\ dst pkg = dst contents
  /\ id pkg = id contents.
Proof.
  intros (_ & r1 & o1 & o2 & Hrecv & _ & Hroute & _).
  pose proof (receive_and_trace_spec strat sender contents r) as H.
  rewrite Hrecv in H. cbn in H. destruct H as (Hb1 & _ & _ & Hpkg).
  destruct (Hpkg pkg eq_refl) as (data & cols & ->).
  split; [|now cbn].
  apply same_base_trans with r1; [assumption|].
  pose proof (call_same_base (routePackage strat (route_add contents data cols)) r1) as H.
  now rewrite Hroute in H.
Qed.

Lemma routes_to_processEvent t r sender contents n r2 pre pkg :
  routes_to r sender contents n r2 pre pkg ->
  processEvent strat (ProcessPkgEvent t sender contents) r
  = let x := transmit strat n pkg r2 in
    Run (after x) (pre ++ emitted x) (result x).
Proof.
  intros (Hinit & r1 & o1 & o2 & Hrecv & Hme & Hroute & ->).
  erewrite processEvent_forward; [|eassumption..].
  cbn. now rewrite app_assoc.
Qed.

Lemma quiet_filters (o : list action) :
  forallb quiet o = true ->
  filter is_report o = [] /\ filter is_packet_event o = [].
Proof.
  induction o as [|a o IH]; cbn; [auto|].
  intros H. apply andb_prop in H as [Ha Ho]. destruct (IH Ho) as [-> ->].
  unfold quiet in Ha. apply andb_prop in Ha as [H1 H2].
  destruct (is_report a); [discriminate|].
  destruct (is_packet_event a); [discriminate|]. auto.
Qed.

Lemma processEvent_for_me t sender contents (r r1 : Router S) o1 pkg :
  isInitialized strat r = true ->
  receive_and_trace strat sender contents r = Run r1 o1 (Ok pkg) ->
  addr r = Some (dst contents) ->
  processEvent strat (ProcessPkgEvent t sender contents) r
  = Run r1
        (o1 ++ [Send (overlord r)
                     (mkPkgDoneMsg (current_time r) (myAddress r) pkg)])
        (Ok tt).
Proof.
  intros Hinit Hrecv Haddr.
  pose proof (receive_and_trace_spec strat sender contents r) as H.
  rewrite Hrecv in H. cbn in H. destruct H as (Hbase & _ & _ & Hpkg).
  destruct (Hpkg pkg eq_refl) as (data & cols & ->).
  destruct (same_base_fields Hbase)
    as (Hov & Had & _ & _ & _ & Hct & _ & Hme & _).
  unfold processEvent. rewrite Hinit. cbn [negb dispatch].
  unfold bind at 1. rewrite Hrecv. cbn.
  unfold is_for_me. rewrite Had, Haddr. cbn. rewrite Nat.eqb_refl. cbn.
  now rewrite Hov, Hct, Hme.
Qed.

(** C4. When an initialised router handles a [ProcessPkgEvent] whose package
    is addressed to the router itself (and the hooks called on the way
    return), it emits exactly one completion report, to the overlord, with
    the current time and the traced package; it emits no packet event, and
    leaves its event queue and link states as they were. *)
Theorem C4_delivered_package_is_reported_once
    t sender contents (r r1 : Router S) o1 pkg :
  isInitialized strat r = true ->
  receive_and_trace strat sender contents r = Run r1 o1 (Ok pkg) ->
  addr r = Some (dst contents) ->
  let x := processEvent strat (ProcessPkgEvent t sender contents) r in
  result x = Ok tt
  /\ filter is_report (emitted x)
     = [Send (overlord r) (mkPkgDoneMsg (current_time r) (myAddress r) pkg)]
  /\ filter is_packet_event (emitted x) = []
  /\ event_queue (after x) = event_queue r
  /\ link_states (after x) = link_states r
  /\ exists data cols, pkg = route_add contents data cols.
Proof.
  intros Hinit Hrecv Haddr.
  pose proof (receive_and_trace_spec strat sender contents r) as H.
  rewrite Hrecv in H. cbn in H. destruct H as (Hbase & Hquiet & _ & Hpkg).
  destruct (same_base_fields Hbase) as (_ & _ & _ & _ & Hls & _ & Hq & _).
  destruct (quiet_filters _ Hquiet) as [Hrep Hev].
  cbv zeta. erewrite processEvent_for_me; [|eassumption..]. cbn.
  rewrite !filter_app, Hrep, Hev. cbn.
  repeat split; auto.
Qed.

(** C2, amended.  When an initialised router handles a [ProcessPkgEvent]
    whose package is for another node, the hooks called on the way return
    and [routePackage] chooses neighbour [n], the link to [n] is alive, [n]
    is a key of the router's [network] and [neighbors] tables, and the
    link's bandwidth is not zero, the router computes
    [transferStart = max(currentTime, link.transfer_time)],
    [transferEnd = transferStart + size/bandwidth] and
    [finish = transferEnd + latency], sets the link's [transfer_time] to
    [transferEnd], and as its last action schedules an [IncomingPkgEvent] at
    [finish] on that neighbour, carrying the traced package. *)
Theorem C2_forwarding_on_an_alive_link
    t sender contents n (r r2 : Router S) pre pkg ls target params :
  routes_to r sender contents n r2 pre pkg ->
  Dict.lookup n (link_states r) = Some ls ->
  alive ls = true ->
  Dict.lookup n (network r) = Some target ->
  Dict.lookup n (neighbors r) = Some params ->
  ~ (bandwidth params == 0)%Q ->
  let transferStart := py_max (current_time r) (transfer_time ls) in
  let transferEnd := (transferStart + size contents / bandwidth params)%Q in
  let finish := (transferEnd + latency params)%Q in
  processEvent strat (ProcessPkgEvent t sender contents) r
  = Run (set_link_states r2
           (Dict.store n (mkLinkState transferEnd true) (link_states r)))
        (pre ++ [SendEvent target (IncomingPkgEvent finish (myAddress r) pkg)])
        (Ok tt).
Proof.
  intros Hroute Hls Halive Htarget Hparams Hbw.
  destruct (routes_to_same_base Hroute) as (Hbase & Hsize & _).
  destruct (same_base_fields Hbase)
    as (_ & _ & Hnet & Hnb & Hlinks & Hct & _ & Hme & _).
  erewrite routes_to_processEvent; [|eassumption].
  rewrite <- Hlinks in Hls. rewrite <- Hnet in Htarget. rewrite <- Hnb in Hparams.
  erewrite transmit_alive; [|eassumption..].
  cbn. now rewrite Hlinks, Hct, Hme, Hsize.
Qed.

(** The two table lookups that open the alive branch are not guarded: when
    the chosen neighbour is missing from [network], or from [neighbors],
    the event raises [KeyError] before any time is computed; the link's
    [transfer_time] is not set and no [IncomingPkgEvent] is scheduled. *)
Lemma forwarding_needs_the_neighbour_tables
    t sender contents n (r r2 : Router S) pre pkg ls :
  routes_to r sender contents n r2 pre pkg ->
  Dict.lookup n (link_states r) = Some ls ->
  alive ls = true ->
  Dict.lookup n (network r) = None \/ Dict.lookup n (neighbors r) = None ->
  processEvent strat (ProcessPkgEvent t sender contents) r
  = Run r2 pre (Raise (Builtin KeyError)).
Proof.
  intros Hroute Hls Halive Hmissing.
  destruct (routes_to_same_base Hroute) as (Hbase & _).
  destruct (same_base_fields Hbase)
    as (_ & _ & Hnet & Hnb & Hlinks & _).
  erewrite routes_to_processEvent; [|eassumption].
  rewrite <- Hlinks in Hls. rewrite <- Hnet, <- Hnb in Hmissing.
  unfold transmit, bind, get, builtin, subscript, lift_outcome, put, emit, ret.
  cbn. rewrite Hls. cbn. rewrite Halive. cbn.
  destruct Hmissing as [H|H].
  - rewrite H. cbn. now rewrite app_nil_r.
  - destruct (Dict.lookup n (network r2)); cbn.
    + rewrite H. cbn. now rewrite app_nil_r.
    + now rewrite app_nil_r.
Qed.
End Forwarding.

Lemma line_router_routes_to_2 :
  routes_to SimpleQRouter.strategy line_router 100%nat pkg_to_2 2%nat
    (set_ext line_router
       (set_reward_pending (ext line_router) [(7%nat, (0, 2%nat))]))
    [SendServiceMsg 100%nat (SimpleRewardMsg 7%nat 0 40 2%nat);
     Print (RoutesPackage (Some 1%nat) 2%nat)]
    (route_add pkg_to_2 (Some [CNum 0; CAddr (Some 1%nat)])
               (Some ["time"%string; "cur_node"%string])).
Proof.
  split; [reflexivity|].
  do 3 eexists. split; [reflexivity|]. split; [reflexivity|].
  split; reflexivity.
Qed.

Lemma C4_delivered_package_is_reported_once_witness :
  let x := processEvent SimpleQRouter.strategy
             (ProcessPkgEvent 0 100%nat pkg_to_1) line_router in
  result x = Ok tt
  /\ filter is_report (emitted x)
     = [Send (Some 999%nat)
          (mkPkgDoneMsg 0 101%nat
             (route_add pkg_to_1 (Some [CNum 0; CAddr (Some 1%nat)])
                        (Some ["time"%string; "cur_node"%string])))]
  /\ filter is_packet_event (emitted x) = []
  /\ event_queue (after x) = []
  /\ link_states (after x) = link_states line_router
  /\ exists data cols,
      route_add pkg_to_1 (Some [CNum 0; CAddr (Some 1%nat)])
                (Some ["time"%string; "cur_node"%string])
      = route_add pkg_to_1 data cols.
Proof.
  apply (@C4_delivered_package_is_reported_once _ SimpleQRouter.strategy
           0 100%nat pkg_to_1 line_router line_router
           [SendServiceMsg 100%nat (SimpleRewardMsg 8%nat 0 0 1%nat);
            Print (RoutesPackage (Some 1%nat) 1%nat)]);
    reflexivity.
Defined.

Lemma C2_forwarding_on_an_alive_link_witness :
  processEvent SimpleQRouter.strategy (ProcessPkgEvent 0 100%nat pkg_to_2) line_router
  = Run (set_link_states
           (set_ext line_router
              (set_reward_pending (ext line_router) [(7%nat, (0, 2%nat))]))
           (Dict.store 2%nat
              (mkLinkState (py_max 0 0 + 5 / 10) true)
              (link_states line_router)))
        ([SendServiceMsg 100%nat (SimpleRewardMsg 7%nat 0 40 2%nat);
          Print (RoutesPackage (Some 1%nat) 2%nat)]
         ++ [SendEvent 102%nat
               (IncomingPkgEvent (py_max 0 0 + 5 / 10 + 1) 101%nat
                  (route_add pkg_to_2 (Some [CNum 0; CAddr (Some 1%nat)])
                             (Some ["time"%string; "cur_node"%string])))])
        (Ok tt).
Proof.
  apply (@C2_forwarding_on_an_alive_link _ SimpleQRouter.strategy
           0 100%nat pkg_to_2 2%nat line_router _ _ _
           (mkLinkState 0 true) 102%nat line_link
           line_router_routes_to_2);
    try reflexivity.
  intros H. discriminate H.
Defined.

(** C2 as stated fails when the link's bandwidth is 0: the division raises
    [ZeroDivisionError], the link's [transfer_time] is not set and no
    [IncomingPkgEvent] is scheduled. *)
Lemma C2_zero_bandwidth_counterexample :
  let r := stalled_router in
  let x := processEvent SimpleQRouter.strategy (ProcessPkgEvent 0 100%nat pkg_to_2) r in
  isInitialized SimpleQRouter.strategy r = true
  /\ addr r <> Some (dst pkg_to_2)
  /\ routes_to SimpleQRouter.strategy r 100%nat pkg_to_2 2%nat
       (set_ext r (set_reward_pending (ext r) [(7%nat, (0, 2%nat))]))
       [SendServiceMsg 100%nat (SimpleRewardMsg 7%nat 0 40 2%nat);
        Print (RoutesPackage (Some 1%nat) 2%nat)]
       (route_add pkg_to_2 (Some [CNum 0; CAddr (Some 1%nat)])
                  (Some ["time"%string; "cur_node"%string]))
  /\ Dict.lookup 2%nat (link_states r) = Some (mkLinkState 0 true)
  /\ result x = Raise (Builtin ZeroDivisionError)
  /\ link_states (after x) = link_states r
  /\ filter is_packet_event (emitted x) = [].
Proof.
  cbv zeta. split; [reflexivity|]. split; [discriminate|].
  split.
  { split; [reflexivity|].
    do 3 eexists. split; [reflexivity|]. split; [reflexivity|].
    split; reflexivity. }
  repeat split; reflexivity.
Qed.

(** ** The link's transfer time *)

(** Every link of [d] is still in [d'], its [transfer_time] no earlier. *)
Definition ls_mono (d d' : dict link_state) : Prop :=
  forall n ls,
    Dict.lookup n d = Some ls ->
    exists ls', Dict.lookup n d' = Some ls'
                /\ (transfer_time ls <= transfer_time ls')%Q.

Lemma ls_mono_refl d : ls_mono d d.
Proof. intros n ls H. exists ls. split; [assumption | apply Qle_refl]. Qed.

Lemma ls_mono_trans d1 d2 d3 : ls_mono d1 d2 -> ls_mono d2 d3 -> ls_mono d1 d3.
Proof.
  intros H12 H23 n ls H.
  destruct (H12 n ls H) as (ls2 & H2 & Hle2).
  destruct (H23 n ls2 H2) as (ls3 & H3 & Hle3).
  exists ls3. split; [assumption | now apply Qle_trans with (transfer_time ls2)].
Qed.

Lemma ls_mono_store d n ls ls' :
  Dict.lookup n d = Some ls ->
  (transfer_time ls <= transfer_time ls')%Q ->
  ls_mono d (Dict.store n ls' d).
Proof.
  intros Hn Hle k lsk Hk. rewrite lookup_store.
  destruct (Nat.eqb_spec n k) as [->|Hne].
  - exists ls'. split; [reflexivity|]. congruence.
  - exists lsk. split; [assumption | apply Qle_refl].
Qed.

Section TransferTime.
Context {S : Type}.
Variable strat : Strategy S.

Definition positive_bandwidths (r : Router S) : Prop :=
  forall k p, Dict.lookup k (neighbors r) = Some p -> (0 < bandwidth p)%Q.

(** The size of the package an event carries is not negative. *)
Definition nonneg_size (ev : event) : Prop :=
  match ev with
  | IncomingPkgEvent _ _ pkg | ProcessPkgEvent _ _ pkg => (0 <= size pkg)%Q
  | _ => True
  end.

Lemma transmit_mono n pkg (r : Router S) :
  positive_bandwidths r -> (0 <= size pkg)%Q ->
  ls_mono (link_states r) (link_states (after (transmit strat n pkg r))).
Proof.
  intros Hbw Hsize.
  unfold transmit, bind, get, builtin, subscript, lift_outcome, put, emit, ret, raise.
  cbn. destruct (Dict.lookup n (link_states r)) as [ls|] eqn:Hls; cbn;
    [|apply ls_mono_refl].
  destruct (alive ls) eqn:Halive; cbn; [|apply ls_mono_refl].
  destruct (Dict.lookup n (network r)) as [target|]; cbn; [|apply ls_mono_refl].
  destruct (Dict.lookup n (neighbors r)) as [params|] eqn:Hparams; cbn;
    [|apply ls_mono_refl].
  specialize (Hbw n params Hparams).
  rewrite py_div_nonzero by (intros H; rewrite H in Hbw; now apply Qlt_irrefl in Hbw).
  cbn. eapply ls_mono_store; [eassumption|]. cbn.
  pose proof (py_max_ge_r (current_time r) (transfer_time ls)).
  pose proof (quotient_nonneg Hsize Hbw). lra.
Qed.

Lemma flag_mono n b ls (d : dict link_state) :
  Dict.lookup n d = Some ls ->
  ls_mono d (Dict.store n (mkLinkState (transfer_time ls) b) d).
Proof. intros H. eapply ls_mono_store; [eassumption | apply Qle_refl]. Qed.

Lemma dispatch_mono ev (r : Router S) :
  positive_bandwidths r -> nonneg_size ev ->
  ls_mono (link_states r) (link_states (after (dispatch strat ev r))).
Proof.
  intros Hbw Hsize. destruct ev as [t sd c|t sd c|n|n|]; cbn [dispatch].
  - apply ls_mono_refl.
  - rewrite after_bind.
    pose proof (receive_and_trace_spec strat sd c r) as H. cbn in H.
    destruct H as (Hbase & _ & _ & Hpkg).
    destruct (same_base_fields Hbase) as (_ & _ & _ & Hnb & Hls & _).
    destruct (result (receive_and_trace strat sd c r)) as [pkg|e];
      [|rewrite Hls; apply ls_mono_refl].
    destruct (Hpkg pkg eq_refl) as (data & cols & ->).
    set (r1 := after (receive_and_trace strat sd c r)) in *.
    rewrite after_bind. cbn [get result after].
    rewrite <- Hls.
    destruct (is_for_me r1 _); [apply ls_mono_refl|].
    unfold forward. rewrite after_bind.
    unfold call at 1 2. cbn [result after].
    destruct (routePackage strat _ r1) as [s2 o2 [[k|]|e]]; cbn [result after];
      try apply ls_mono_refl.
    apply (@transmit_mono k (route_add c data cols) (set_ext r1 s2)).
    + intros k' p Hk. cbn in Hk. rewrite Hnb in Hk. eapply Hbw, Hk.
    + exact Hsize.
  - unfold bind, get, builtin, subscript, put, call, raise, ret. cbn.
    destruct (Dict.lookup n (link_states r)) as [ls|] eqn:Hls; cbn;
      [|apply ls_mono_refl].
    now apply flag_mono.
  - unfold bind, get, builtin, subscript, put, call, raise, ret. cbn.
    destruct (Dict.lookup n (link_states r)) as [ls|] eqn:Hls; cbn;
      [|apply ls_mono_refl].
    now apply flag_mono.
  - apply ls_mono_refl.
Qed.

(** C9. Handling any event leaves every link's [transfer_time] at least as
    large as it was, when the package the event carries has a non-negative
    size and every link's bandwidth is positive. *)
Theorem C9_transfer_time_never_decreases (ev : event) (r : Router S) n ls :
  positive_bandwidths r ->
  nonneg_size ev ->
  Dict.lookup n (link_states r) = Some ls ->
  exists ls',
    Dict.lookup n (link_states (after (processEvent strat ev r))) = Some ls'
    /\ (transfer_time ls <= transfer_time ls')%Q.
Proof.
  intros Hbw Hsize. unfold processEvent.
  destruct (isInitialized strat r); cbn.
  - now apply dispatch_mono.
  - apply ls_mono_refl.
Qed.
End TransferTime.

Lemma line_router_positive_bandwidths : positive_bandwidths line_router.
Proof.
  intros k p H. cbn in H.
  destruct k as [|[|[|k]]]; cbn in H; try discriminate;
    injection H as <-; reflexivity.
Qed.

Lemma C9_transfer_time_never_decreases_witness :
  exists ls',
    Dict.lookup 2%nat
      (link_states
         (after (processEvent SimpleQRouter.strategy
                   (ProcessPkgEvent 0 100%nat pkg_to_2) line_router)))
    = Some ls'
    /\ (transfer_time (mkLinkState 0 true) <= transfer_time ls')%Q.
Proof.
  apply (@C9_transfer_time_never_decreases _ SimpleQRouter.strategy
           (ProcessPkgEvent 0 100%nat pkg_to_2) line_router 2%nat
           (mkLinkState 0 true)).
  - exact line_router_positive_bandwidths.
  - cbn. discriminate.
  - reflexivity.
Defined.

(** ** Two packages on one link *)

Section Serialisation.
Context {S : Type}.
Variable strat : Strategy S.

Lemma routes_to_emits t (r r2 : Router S) sender contents n pre pkg ls target params :
  routes_to strat r sender contents n r2 pre pkg ->
  Dict.lookup n (link_states r) = Some ls ->
  alive ls = true ->
  Dict.lookup n (network r) = Some target ->
  Dict.lookup n (neighbors r) = Some params ->
  ~ (bandwidth params == 0)%Q ->
  let x := processEvent strat (ProcessPkgEvent t sender contents) r in
  let transfer_end_time :=
    (py_max (current_time r) (transfer_time ls) + size contents / bandwidth params)%Q in
  emitted x
  = pre ++ [SendEvent target
              (IncomingPkgEvent (transfer_end_time + latency params)%Q (myAddress r) pkg)]
  /\ Dict.lookup n (link_states (after x)) = Some (mkLinkState transfer_end_time true).
Proof.
  intros Hroute Hls Halive Htarget Hparams Hbw.
  destruct (routes_to_same_base Hroute) as (Hbase & Hsize & _).
  destruct (same_base_fields Hbase)
    as (_ & _ & Hnet & Hnb & Hlinks & Hct & _ & Hme & _).
  cbv zeta. erewrite routes_to_processEvent; [|eassumption].
  rewrite <- Hlinks in Hls. rewrite <- Hnet in Htarget. rewrite <- Hnb in Hparams.
  erewrite transmit_alive; [|eassumption..].
  cbn. rewrite lookup_store_same, Hct, Hme, Hsize. auto.
Qed.

(** C3, amended.  When a router forwards two packages on the same alive link
    of positive bandwidth, the second while the link is as the first left
    it, and the second package's size is not negative, then: the first
    transfer ends at [end1 = max(now1, transfer_time) + size1/bandwidth] and
    its package finishes at [f1 = end1 + latency]; the second transfer
    starts at [start2 = max(now2, end1)], no earlier than the first ends,
    and its package finishes at [f2 = start2 + size2/bandwidth + latency];
    and [f1 <= f2].  The bound [f1 + size2/bandwidth <= f2] is left out: it
    is an identity of exact arithmetic that the rounded sums of the code do
    not keep. *)
Theorem C3_no_overtaking_on_a_link
    t1 sender1 c1 t2 sender2 c2 n (r r' ra rb : Router S)
    pre1 pkg1 pre2 pkg2 ls target params :
  routes_to strat r sender1 c1 n ra pre1 pkg1 ->
  Dict.lookup n (link_states r) = Some ls ->
  alive ls = true ->
  Dict.lookup n (network r) = Some target ->
  Dict.lookup n (neighbors r) = Some params ->
  routes_to strat r' sender2 c2 n rb pre2 pkg2 ->
  Dict.lookup n (link_states r')
  = Dict.lookup n (link_states
                     (after (processEvent strat (ProcessPkgEvent t1 sender1 c1) r))) ->
  Dict.lookup n (network r') = Some target ->
  Dict.lookup n (neighbors r') = Some params ->
  (0 < bandwidth params)%Q ->
  (0 <= size c2)%Q ->
  let end1 :=
    (py_max (current_time r) (transfer_time ls) + size c1 / bandwidth params)%Q in
  let start2 := py_max (current_time r') end1 in
  let f1 := (end1 + latency params)%Q in
  let f2 := (start2 + size c2 / bandwidth params + latency params)%Q in
  emitted (processEvent strat (ProcessPkgEvent t1 sender1 c1) r)
  = pre1 ++ [SendEvent target (IncomingPkgEvent f1 (myAddress r) pkg1)]
  /\ emitted (processEvent strat (ProcessPkgEvent t2 sender2 c2) r')
     = pre2 ++ [SendEvent target (IncomingPkgEvent f2 (myAddress r') pkg2)]
  /\ (end1 <= start2)%Q
  /\ (f1 <= f2)%Q.
Proof.
  intros Hr1 Hls Halive Htarget Hparams Hr2 Hlink Htarget' Hparams' Hbw Hsize.
  assert (Hnz : ~ (bandwidth params == 0)%Q).
  { intros H. rewrite H in Hbw. now apply Qlt_irrefl in Hbw. }
  destruct (routes_to_emits t1 Hr1 Hls Halive Htarget Hparams Hnz) as [E1 L1].
  rewrite L1 in Hlink.
  destruct (routes_to_emits t2 Hr2 Hlink eq_refl Htarget' Hparams' Hnz) as [E2 _].
  cbn [transfer_time] in E2.
  cbv zeta. split; [exact E1|]. split; [exact E2|].
  set (te1 := (py_max (current_time r) (transfer_time ls)
               + size c1 / bandwidth params)%Q).
  pose proof (py_max_ge_r (current_time r') te1).
  pose proof (quotient_nonneg Hsize Hbw).
  split; [assumption | lra].
Qed.
End Serialisation.


Lemma run_eta {St Act E A} (x : run St Act E A) :
  x = Run (after x) (emitted x) (result x).
Proof. destruct x; reflexivity. Qed.

Lemma routes_to_computed {S} (strat : Strategy S) (r : Router S) sender contents n pkg :
  isInitialized strat r = true ->
  result (receive_and_trace strat sender contents r) = Ok pkg ->
  is_for_me r pkg = false ->
  result (call (routePackage strat pkg)
               (after (receive_and_trace strat sender contents r))) = Ok (Some n) ->
  routes_to strat r sender contents n
    (after (call (routePackage strat pkg)
                 (after (receive_and_trace strat sender contents r))))
    (emitted (receive_and_trace strat sender contents r)
     ++ emitted (call (routePackage strat pkg)
                      (after (receive_and_trace strat sender contents r))))
    pkg.
Proof.
  intros Hinit Hrecv Hme Hroute. split; [assumption|].
  exists (after (receive_and_trace strat sender contents r)),
         (emitted (receive_and_trace strat sender contents r)),
         (emitted (call (routePackage strat pkg)
                        (after (receive_and_trace strat sender contents r)))).
  rewrite <- Hrecv, <- Hroute. rewrite <- !run_eta. auto.
Qed.

Lemma C3_no_overtaking_on_a_link_witness :
  let end1 := (py_max 0 0 + 5 / 10)%Q in
  let start2 := py_max 0 end1 in
  let f1 := (end1 + 1)%Q in
  let f2 := (start2 + 3 / 10 + 1)%Q in
  emitted (processEvent SimpleQRouter.strategy
             (ProcessPkgEvent 0 100%nat pkg_to_2) line_router)
  = [SendServiceMsg 100%nat (SimpleRewardMsg 7%nat 0 40 2%nat);
     Print (RoutesPackage (Some 1%nat) 2%nat)]
    ++ [SendEvent 102%nat
          (IncomingPkgEvent f1 101%nat
             (route_add pkg_to_2 (Some [CNum 0; CAddr (Some 1%nat)])
                        (Some ["time"%string; "cur_node"%string])))]
  /\ emitted (processEvent SimpleQRouter.strategy
                (ProcessPkgEvent 0 100%nat pkg_second) line_router_busy)
     = [SendServiceMsg 100%nat (SimpleRewardMsg 10%nat 0 40 2%nat);
        Print (RoutesPackage (Some 1%nat) 2%nat)]
       ++ [SendEvent 102%nat
             (IncomingPkgEvent f2 101%nat
                (route_add pkg_second (Some [CNum 0; CAddr (Some 1%nat)])
                           (Some ["time"%string; "cur_node"%string])))]
  /\ (end1 <= start2)%Q
  /\ (f1 <= f2)%Q.
Proof.
  eapply (@C3_no_overtaking_on_a_link _ SimpleQRouter.strategy
           0 100%nat pkg_to_2 0 100%nat pkg_second 2%nat
           line_router line_router_busy _ _ _ _ _ _
           (mkLinkState 0 true) 102%nat line_link).
  - exact line_router_routes_to_2.
  - reflexivity.
  - reflexivity.
  - reflexivity.
  - reflexivity.
  - apply (@routes_to_computed _ SimpleQRouter.strategy line_router_busy
             100%nat pkg_second 2%nat
             (route_add pkg_second (Some [CNum 0; CAddr (Some 1%nat)])
                        (Some ["time"%string; "cur_node"%string])));
      reflexivity.
  - reflexivity.
  - reflexivity.
  - reflexivity.
  - reflexivity.
  - cbn. discriminate.
Defined.

(** C3 as stated fails when the second package's size is negative: with
    bandwidth 10 and latency 1, a package of size 5 followed on the same
    link by one of size -5 gives finish times 3/2 and then 1. *)
Lemma C3_negative_size_counterexample :
  let f1 := (py_max 0 0 + 5 / 10 + 1)%Q in
  let f2 := (py_max 0 (py_max 0 0 + 5 / 10) + (-5) / 10 + 1)%Q in
  emitted (processEvent SimpleQRouter.strategy
             (ProcessPkgEvent 0 100%nat pkg_to_2) line_router)
  = [SendServiceMsg 100%nat (SimpleRewardMsg 7%nat 0 40 2%nat);
     Print (RoutesPackage (Some 1%nat) 2%nat);
     SendEvent 102%nat
       (IncomingPkgEvent f1 101%nat
          (route_add pkg_to_2 (Some [CNum 0; CAddr (Some 1%nat)])
                     (Some ["time"%string; "cur_node"%string])))]
  /\ emitted (processEvent SimpleQRouter.strategy
                (ProcessPkgEvent 0 100%nat pkg_negative) line_router_busy)
     = [SendServiceMsg 100%nat (SimpleRewardMsg 9%nat 0 40 2%nat);
        Print (RoutesPackage (Some 1%nat) 2%nat);
        SendEvent 102%nat
          (IncomingPkgEvent f2 101%nat
             (route_add pkg_negative (Some [CNum 0; CAddr (Some 1%nat)])
                        (Some ["time"%string; "cur_node"%string])))]
  /\ (0 < bandwidth line_link)%Q
  /\ (0 <= latency line_link)%Q
  /\ (f1 == 3 # 2)%Q
  /\ (f2 == 1)%Q
  /\ ~ (f1 <= f2)%Q.
Proof.
  cbv zeta. repeat split; try reflexivity.
  - cbn. discriminate.
  - vm_compute. intros H. apply H. reflexivity.
Qed.

Section Rounding.
Import PrimFloat.
Local Open Scope float_scope.

(** The second bound of C3 fails in the code's own arithmetic without any
    unusual input: on a link of latency 1 and bandwidth 10, two packages of
    size 1 forwarded at time 0 finish at [f1 = 1.1] and [f2 = 1.2], in
    order, while [f1 + size2/bandwidth] evaluates to
    [1.2000000000000002], which is greater than [f2]. *)
#[warnings="-inexact-float"]
Lemma transfer_gap_is_rounded :
  let '(end1, f1) := Binary64.link_times 0 0 1 10 1 in
  let '(end2, f2) := Binary64.link_times 0 end1 1 10 1 in
  f1 = 1.1
  /\ f2 = 1.2
  /\ leb f1 f2 = true
  /\ f1 + 1 / 10 = 1.2000000000000002
  /\ ltb f2 (f1 + 1 / 10) = true.
Proof. vm_compute. repeat split. Qed.
End Rounding.

(** ** SimpleQRouter: rewards *)

Lemma set_ext_same {S} (r : Router S) : set_ext r (ext r) = r.
Proof. destruct r; reflexivity. Qed.

Lemma min_from_spec rest : forall best,
  In (min_from best rest) (best :: rest)
  /\ forall x, In x (best :: rest) -> (snd (min_from best rest) <= snd x)%Q.
Proof.
  induction rest as [|y rest IH]; intros best; cbn [min_from].
  - split; [now left|]. intros x [<-|[]]. apply Qle_refl.
  - destruct (Qle_bool (snd best) (snd y)) eqn:E.
    + destruct (IH best) as [Hin Hle]. split.
      * destruct Hin as [H|H]; [now left | right; now right].
      * intros x [<-|[<-|Hx]].
        -- apply Hle. now left.
        -- apply Qle_trans with (snd best); [apply Hle; now left|].
           now apply Qle_bool_iff.
        -- apply Hle. now right.
    + destruct (IH y) as [Hin Hle]. split.
      * right. exact Hin.
      * intros x [<-|[<-|Hx]].
        -- apply Qle_trans with (snd y); [apply Hle; now left|].
           destruct (Qlt_le_dec (snd y) (snd best)) as [H|H].
           ++ now apply Qlt_le_weak.
           ++ apply Qle_bool_iff in H. congruence.
        -- apply Hle. now left.
        -- apply Hle. now right.
Qed.

(** [dict_min] of a non-empty dict returns one of its items, of least value. *)
Lemma dict_min_spec (row : dict Q) :
  row <> [] ->
  exists best,
    dict_min row = Ok best
    /\ In best (Dict.items row)
    /\ forall v, In v (Dict.values row) -> (snd best <= v)%Q.
Proof.
  destruct row as [|x rest]; [congruence|]. intros _.
  exists (min_from x rest). destruct (min_from_spec rest x) as [Hin Hle].
  split; [reflexivity|]. split; [exact Hin|].
  intros v Hv. unfold Dict.values in Hv. apply in_map_iff in Hv as (y & <- & Hy).
  now apply Hle.
Qed.

Lemma emitted_bind {St Act E A B} (m : M St Act E A) (f : A -> M St Act E B) s :
  emitted (bind m f s)
  = emitted (m s)
    ++ match result (m s) with
       | Ok a => emitted (f a (after (m s)))
       | Raise _ => []
       end.
Proof.
  unfold bind. destruct (result (m s)); cbn; [reflexivity|].
  now rewrite app_nil_r.
Qed.

Section Rewards.
Variable r : Router SimpleQ.

Lemma mkRewardMsg_at_destination pkg :
  addr r = Some (dst pkg) ->
  SimpleQRouter.mkRewardMsg r pkg (ext r)
  = Run (ext r) [] (Ok (SimpleRewardMsg (id pkg) (current_time r) 0 (dst pkg))).
Proof.
  intros H. unfold SimpleQRouter.mkRewardMsg, bind, get, ret. cbn.
  rewrite H, Nat.eqb_refl. reflexivity.
Qed.

Lemma mkRewardMsg_elsewhere pkg row :
  addr r <> Some (dst pkg) ->
  Dict.lookup (dst pkg) (Qtable (ext r)) = Some row ->
  row <> [] ->
  exists best,
    dict_min row = Ok best
    /\ SimpleQRouter.mkRewardMsg r pkg (ext r)
       = Run (ext r) []
             (Ok (SimpleRewardMsg (id pkg) (current_time r) (snd best) (dst pkg))).
Proof.
  intros Hne Hrow Hnonempty.
  destruct (dict_min_spec Hnonempty) as (best & Hmin & _).
  exists best. split; [exact Hmin|].
  unfold SimpleQRouter.mkRewardMsg, bind, get, ret, subscript, lift_outcome. cbn.
  replace (match addr r with Some a => (a =? dst pkg)%nat | None => false end)
    with false.
  2:{ destruct (addr r) as [a|]; [|reflexivity].
      destruct (Nat.eqb_spec a (dst pkg)); congruence. }
  rewrite Hrow. cbn. rewrite Hmin. reflexivity.
Qed.

Lemma receivePackage_run sender pkg m :
  SimpleQRouter.mkRewardMsg r pkg (ext r) = Run (ext r) [] (Ok m) ->
  SimpleQRouter.receivePackage r sender pkg (ext r)
  = Run (ext r) [HSendServiceMsg sender m] (Ok tt).
Proof.
  intros Hmk. unfold SimpleQRouter.receivePackage, bind. rewrite Hmk. reflexivity.
Qed.

(** What handling a [ProcessPkgEvent] emits first is what [receivePackage]
    emits. *)
Lemma processEvent_emits_reward t sender pkg m :
  Router_isInitialized r = true ->
  SimpleQRouter.mkRewardMsg r pkg (ext r) = Run (ext r) [] (Ok m) ->
  exists rest,
    emitted (processEvent SimpleQRouter.strategy (ProcessPkgEvent t sender pkg) r)
    = SendServiceMsg sender m :: rest.
Proof.
  intros Hinit Hmk. unfold processEvent. cbn [isInitialized SimpleQRouter.strategy].
  rewrite Hinit. cbn [negb dispatch].
  rewrite emitted_bind. unfold receive_and_trace at 1. rewrite emitted_bind.
  unfold call at 1. cbn [emitted].
  cbn [receivePackage SimpleQRouter.strategy SimpleQRouter.on_self].
  unfold SimpleQRouter.on_self. rewrite (receivePackage_run sender Hmk).
  cbn [emitted map lift_action]. rewrite <- app_assoc. cbn [app].
  eexists. reflexivity.
Qed.
End Rewards.

(** C5. When a SimpleQRouter handles the [ProcessPkgEvent] of a package it
    received, the first thing it emits is a reward message to the sender,
    carrying the package's id, the router's current time, the destination
    and an estimate: 0 when the router is the destination, otherwise the
    least of the router's Q-values for that destination.  When a reward
    arrives whose package has a pending state [(sentTime, _)], the entry
    [Q[dst][neighbor]] of the neighbour that sent it grows by
    [learningRate * (newEstimate - Q[dst][neighbor])], where
    [newEstimate = estimate + (receiverTime - sentTime)]. *)
Theorem C5_reward_protocol (r : Router SimpleQ) :
  (forall t sender pkg,
      Router_isInitialized r = true ->
      (addr r = Some (dst pkg) ->
       exists rest,
         emitted (processEvent SimpleQRouter.strategy
                    (ProcessPkgEvent t sender pkg) r)
         = SendServiceMsg sender
             (SimpleRewardMsg (id pkg) (current_time r) 0 (dst pkg)) :: rest)
      /\ (forall row,
             addr r <> Some (dst pkg) ->
             Dict.lookup (dst pkg) (Qtable (ext r)) = Some row ->
             row <> [] ->
             exists estimate rest,
               emitted (processEvent SimpleQRouter.strategy
                          (ProcessPkgEvent t sender pkg) r)
               = SendServiceMsg sender
                   (SimpleRewardMsg (id pkg) (current_time r) estimate (dst pkg))
                 :: rest
               /\ In estimate (Dict.values row)
               /\ forall v, In v (Dict.values row) -> (estimate <= v)%Q))
  /\ (forall p receiverTime estimate d sender sentTime d0 neighbor row old lr,
         Dict.lookup p (reward_pending (ext r)) = Some (sentTime, d0) ->
         Dict.lookup sender (network_inv r) = Some neighbor ->
         Dict.lookup d (Qtable (ext r)) = Some row ->
         Dict.lookup neighbor row = Some old ->
         learning_rate (ext r) = Some lr ->
         let newEstimate := (estimate + (receiverTime - sentTime))%Q in
         let updated := (old + lr * (newEstimate - old))%Q in
         let x := SimpleQRouter.deliverServiceMsg
                    (SimpleRewardMsg p receiverTime estimate d) sender r in
         x = Run (set_ext r
                    (set_Qtable (ext r)
                       (Dict.store d (Dict.store neighbor updated row)
                                   (Qtable (ext r)))))
                 [] (Ok tt)
         /\ Q_entry d neighbor (Qtable (ext (after x))) = Some updated).
Proof.
  split.
  - intros t sender pkg Hinit. split.
    + intros Haddr.
      apply processEvent_emits_reward; [assumption|].
      now apply mkRewardMsg_at_destination.
    + intros row Hne Hrow Hnonempty.
      destruct (@mkRewardMsg_elsewhere r pkg row Hne Hrow Hnonempty) as (best & Hmin & Hmk).
      destruct (dict_min_spec Hnonempty) as (best' & Hmin' & Hin & Hle).
      assert (best' = best) as -> by congruence.
      destruct (processEvent_emits_reward t sender Hinit Hmk) as [rest Hrest].
      exists (snd best), rest. split; [exact Hrest|]. split; [|exact Hle].
      unfold Dict.values. apply in_map. exact Hin.
  - intros p receiverTime estimate d sender sentTime d0 neighbor row old lr
           Hpending Hsender Hrow Hold Hlr. cbv zeta.
    assert (E : SimpleQRouter.deliverServiceMsg
                  (SimpleRewardMsg p receiverTime estimate d) sender r
                = Run (set_ext r
                         (set_Qtable (ext r)
                            (Dict.store d
                               (Dict.store neighbor
                                  (old + lr * (estimate + (receiverTime - sentTime) - old))%Q
                                  row)
                               (Qtable (ext r)))))
                      [] (Ok tt)).
    { unfold SimpleQRouter.deliverServiceMsg, call, SimpleQRouter.on_self,
        SimpleQRouter.receiveServiceMsg, SimpleQRouter.mkSample,
        SimpleQRouter.observe, bind, get, put, ret, subscript.
      cbn. rewrite Hpending. cbn. rewrite Hsender. cbn. rewrite Hrow. cbn.
      rewrite Hold. cbn. rewrite Hlr. reflexivity. }
    rewrite E. split; [reflexivity|].
    cbn. unfold Q_entry. rewrite lookup_store_same. apply lookup_store_same.
Qed.

(** C1, as the code has it.  A reward whose package has no pending state is
    logged and then raises: [mkSample] is still called, with [prev_state]
    the integer 0, and fails ([KeyError] for an unknown sender, [TypeError]
    on [prev_state[0]], [Exception] for a reward that is not a
    [SimpleRewardMsg]).  The router's state is as it was. *)
Theorem C1_reward_without_context_raises
    (r : Router SimpleQ) (message : service_msg) (sender : actor) (p : pkg_id) :
  reward_pkg_id message = Some p ->
  Dict.lookup p (reward_pending (ext r)) = None ->
  exists e,
    SimpleQRouter.deliverServiceMsg message sender r
    = Run r [Print UnexpectedRewardMsg] (Raise (Builtin e))
    /\ (forall receiverTime estimate d neighbor,
           message = SimpleRewardMsg p receiverTime estimate d ->
           Dict.lookup sender (network_inv r) = Some neighbor ->
           e = TypeError).
Proof.
  intros Hid Hpending.
  unfold SimpleQRouter.deliverServiceMsg, call, SimpleQRouter.on_self,
    SimpleQRouter.receiveServiceMsg, SimpleQRouter.mkSample, bind, get, emit,
    ret, raise, subscript.
  destruct message as [| p' ct est d | p' |]; cbn in Hid; try discriminate;
    injection Hid as ->; cbn; rewrite Hpending; cbn.
  - destruct (Dict.lookup sender (network_inv r)) as [neighbor|] eqn:Hsender; cbn;
      rewrite set_ext_same.
    + exists TypeError. split; [reflexivity|]. reflexivity.
    + exists KeyError. split; [reflexivity|]. intros; discriminate.
  - rewrite set_ext_same. eexists. split; [reflexivity|]. intros; discriminate.
Qed.

Lemma C5_reward_protocol_witness :
  (exists rest,
      emitted (processEvent SimpleQRouter.strategy
                 (ProcessPkgEvent 0 100%nat pkg_to_1) line_router)
      = SendServiceMsg 100%nat (SimpleRewardMsg 8%nat 0 0 1%nat) :: rest)
  /\ (exists estimate rest,
         emitted (processEvent SimpleQRouter.strategy
                    (ProcessPkgEvent 0 100%nat pkg_to_2) line_router)
         = SendServiceMsg 100%nat (SimpleRewardMsg 7%nat 0 estimate 2%nat) :: rest
         /\ In estimate (Dict.values [(0%nat, 100500); (2%nat, 40)])
         /\ forall v, In v (Dict.values [(0%nat, 100500); (2%nat, 40)]) ->
                      (estimate <= v)%Q)
  /\ Q_entry 2%nat 2%nat
       (Qtable (ext (after (SimpleQRouter.deliverServiceMsg
                              (SimpleRewardMsg 7%nat 3 0 2%nat) 102%nat
                              line_router_busy))))
     = Some (40 + (1 # 2) * (0 + (3 - 0) - 40))%Q.
Proof.
  destruct (C5_reward_protocol line_router) as [Hsend _].
  destruct (C5_reward_protocol line_router_busy) as [_ Hupdate].
  split; [|split].
  - apply (Hsend 0 100%nat pkg_to_1); reflexivity.
  - apply (proj2 (Hsend 0 100%nat pkg_to_2 eq_refl)
             [(0%nat, 100500); (2%nat, 40)]).
    + discriminate.
    + reflexivity.
    + discriminate.
  - apply (Hupdate 7%nat 3 0 2%nat 102%nat 0 2%nat 2%nat
             [(0%nat, 100500); (2%nat, 40)] 40 (1 # 2));
      reflexivity.
Defined.

Lemma C1_reward_without_context_raises_witness :
  exists e,
    SimpleQRouter.deliverServiceMsg (SimpleRewardMsg 7%nat 5 0 2%nat) 102%nat line_router
    = Run line_router [Print UnexpectedRewardMsg] (Raise (Builtin e))
    /\ (forall receiverTime estimate d neighbor,
           SimpleRewardMsg 7%nat 5 0 2%nat = SimpleRewardMsg 7%nat receiverTime estimate d ->
           Dict.lookup 102%nat (network_inv line_router) = Some neighbor ->
           e = TypeError).
Proof.
  apply (@C1_reward_without_context_raises line_router
           (SimpleRewardMsg 7%nat 5 0 2%nat) 102%nat 7%nat); reflexivity.
Defined.

(** The failing input of C1, evaluated. *)
Lemma reward_without_context_on_line_router :
  SimpleQRouter.deliverServiceMsg (SimpleRewardMsg 7%nat 5 0 2%nat) 102%nat line_router
  = Run line_router [Print UnexpectedRewardMsg] (Raise (Builtin TypeError)).
Proof. reflexivity. Qed.

(** ** LinkStateRouter: flooding *)

Lemma after_bind_any {St Act E A B} (m : M St Act E A) (f : A -> M St Act E B) s :
  after (bind m f s)
  = match result (m s) with
    | Ok a => after (f a (after (m s)))
    | Raise _ => after (m s)
    end.
Proof. unfold bind. destruct (result (m s)); reflexivity. Qed.

Section Flooding.
Variable r : Router LinkState.

(** The targets of a broadcast over the neighbours [ns]. *)
Definition targets_of (ns : list node) (sender : actor) : list actor :=
  filter (fun target => negb (Nat.eqb sender target))
         (flat_map (fun n => match Dict.lookup n (network r) with
                             | Some target => [target]
                             | None => []
                             end) ns).

(** The body of the loop of [_broadcastAnnouncement]. *)
Definition broadcast_to (announcement : service_msg) (sender : actor) (n : node)
    : LinkStateRouter.LM unit :=
  target <- subscript (network r) n ;;
  if negb (Nat.eqb sender target)
  then emit (HSendServiceMsg target announcement)
  else ret tt.

Lemma broadcast_to_present announcement sender n target (s : LinkState) :
  Dict.lookup n (network r) = Some target ->
  broadcast_to announcement sender n s
  = Run s (if negb (Nat.eqb sender target)
           then [HSendServiceMsg target announcement] else [])
        (Ok tt).
Proof.
  intros E. unfold broadcast_to, bind, subscript. rewrite E. cbn.
  destruct (Nat.eqb sender target); reflexivity.
Qed.

Lemma broadcast_to_keeps_state announcement sender n (s : LinkState) :
  after (broadcast_to announcement sender n s) = s.
Proof.
  unfold broadcast_to, bind, subscript.
  destruct (Dict.lookup n (network r)) as [target|]; cbn; [|reflexivity].
  destruct (Nat.eqb sender target); reflexivity.
Qed.

Lemma broadcast_loop announcement sender (s : LinkState) : forall ns,
  (forall n, In n ns -> Dict.lookup n (network r) <> None) ->
  for_each ns (broadcast_to announcement sender) s
  = Run s (map (fun target => HSendServiceMsg target announcement)
               (targets_of ns sender))
        (Ok tt).
Proof.
  induction ns as [|n ns IH]; intros Hnet; [reflexivity|].
  cbn [for_each]. unfold bind.
  assert (Hn : Dict.lookup n (network r) <> None) by (apply Hnet; now left).
  destruct (Dict.lookup n (network r)) as [target|] eqn:E; [|congruence].
  rewrite (broadcast_to_present announcement sender n s E). cbn [result after emitted].
  rewrite IH by (intros k Hk; apply Hnet; now right). cbn [result after emitted].
  unfold targets_of. cbn [flat_map]. rewrite E. cbn [app filter].
  destruct (Nat.eqb sender target); reflexivity.
Qed.

(** A broadcast changes nothing in the router, whether or not it fails. *)
Lemma broadcast_keeps_state announcement sender (s : LinkState) : forall ns,
  after (for_each ns (broadcast_to announcement sender) s) = s.
Proof.
  induction ns as [|n ns IH]; [reflexivity|].
  cbn [for_each]. rewrite after_bind_any, broadcast_to_keeps_state.
  destruct (result _); [exact IH | reflexivity].
Qed.
End Flooding.

(** The last sequence number seen from [origin] is at least [seq]. *)
Definition seen (origin seq : nat) (r : Router LinkState) : Prop :=
  exists s, Dict.lookup origin (announcements (ext r)) = Some s /\ (seq <= s)%nat.

Lemma seen_not_newer origin seq r :
  seen origin seq r ->
  LinkStateRouter.newer seq (Dict.lookup origin (announcements (ext r))) = false.
Proof.
  intros (s & -> & Hle). cbn. apply Nat.ltb_ge. exact Hle.
Qed.

Lemma process_newer (s : LinkState) seq origin links nodes :
  LinkStateRouter.newer seq (Dict.lookup origin (announcements s)) = true ->
  LinkStateRouter.processLSAnnouncement (LinkStateAnnouncement seq origin links) nodes s
  = Run (mkLinkStateHolder (seq_num s)
           (Dict.store origin seq (announcements s))
           (Dict.store origin links (network_graph s)))
        [] (Ok true).
Proof.
  intros H. unfold LinkStateRouter.processLSAnnouncement, bind, get, put, ret.
  cbn. rewrite H. reflexivity.
Qed.

Lemma process_stale (s : LinkState) seq origin links nodes :
  LinkStateRouter.newer seq (Dict.lookup origin (announcements s)) = false ->
  LinkStateRouter.processLSAnnouncement (LinkStateAnnouncement seq origin links) nodes s
  = Run s [] (Ok false).
Proof.
  intros H. unfold LinkStateRouter.processLSAnnouncement, bind, get, put, ret.
  cbn. rewrite H. reflexivity.
Qed.

Lemma deliver_stale (r : Router LinkState) seq origin links sender :
  LinkStateRouter.newer seq (Dict.lookup origin (announcements (ext r))) = false ->
  LinkStateRouter.deliverServiceMsg (LinkStateAnnouncement seq origin links) sender r
  = Run r [] (Ok tt).
Proof.
  intros H.
  unfold LinkStateRouter.deliverServiceMsg, LinkStateRouter.receiveServiceMsg, bind.
  erewrite process_stale by exact H. cbn. now rewrite set_ext_same.
Qed.

Lemma deliver_newer_state (r : Router LinkState) seq origin links sender :
  LinkStateRouter.newer seq (Dict.lookup origin (announcements (ext r))) = true ->
  ext (after (LinkStateRouter.deliverServiceMsg
                (LinkStateAnnouncement seq origin links) sender r))
  = mkLinkStateHolder (seq_num (ext r))
      (Dict.store origin seq (announcements (ext r)))
      (Dict.store origin links (network_graph (ext r))).
Proof.
  intros H.
  unfold LinkStateRouter.deliverServiceMsg, LinkStateRouter.receiveServiceMsg, bind.
  erewrite process_newer by exact H. cbn [result after emitted ext set_ext].
  apply (broadcast_keeps_state r).
Qed.

Lemma deliver_keeps_seen origin seq (r : Router LinkState) m sender :
  seen origin seq r ->
  seen origin seq (after (LinkStateRouter.deliverServiceMsg m sender r)).
Proof.
  intros Hseen.
  destruct m as [seq' origin' links'| | |];
    try (unfold LinkStateRouter.deliverServiceMsg; cbn; now rewrite set_ext_same).
  destruct (LinkStateRouter.newer seq'
              (Dict.lookup origin' (announcements (ext r)))) eqn:E.
  - unfold seen. erewrite deliver_newer_state by exact E. cbn.
    destruct Hseen as (s & Hs & Hle). rewrite lookup_store.
    destruct (Nat.eqb_spec origin' origin) as [->|Hne].
    + rewrite Hs in E. cbn in E. apply Nat.ltb_lt in E.
      exists seq'. split; [reflexivity | lia].
    + exists s. auto.
  - now erewrite deliver_stale by exact E.
Qed.

Lemma deliver_all_keeps_seen origin seq msgs : forall (r : Router LinkState),
  seen origin seq r ->
  seen origin seq (LinkStateRouter_deliver_all msgs r).
Proof.
  induction msgs as [|m msgs IH]; intros r H; [exact H|].
  cbn. apply IH. now apply deliver_keeps_seen.
Qed.

(** C7. A LinkStateRouter that receives an announcement applies it to its
    topology graph exactly when its sequence number is newer than the last
    one seen from its origin: then the graph and the last-seen number are
    updated, and the announcement is sent on to the neighbours other than
    the one it came from; otherwise nothing changes and nothing is sent.
    Once an announcement has been received, receiving it again, whenever
    and from whomever, sends nothing. *)
Theorem C7_announcements_flood_once
    (r : Router LinkState) (seq origin : nat) (links : ls_snapshot) (sender : actor) :
  let announcement := LinkStateAnnouncement seq origin links in
  let x := LinkStateRouter.deliverServiceMsg announcement sender r in
  (LinkStateRouter.newer seq (Dict.lookup origin (announcements (ext r))) = true ->
   ext (after x)
   = mkLinkStateHolder (seq_num (ext r))
       (Dict.store origin seq (announcements (ext r)))
       (Dict.store origin links (network_graph (ext r)))
   /\ ((forall n, In n (Dict.keys (neighbors r)) ->
                  Dict.lookup n (network r) <> None) ->
       result x = Ok tt
       /\ emitted x
          = map (fun target => SendServiceMsg target announcement)
                (flood_targets r sender)))
  /\ (LinkStateRouter.newer seq (Dict.lookup origin (announcements (ext r))) = false ->
      x = Run r [] (Ok tt))
  /\ (forall msgs sender',
         let r' := LinkStateRouter_deliver_all msgs (after x) in
         LinkStateRouter.deliverServiceMsg announcement sender' r'
         = Run r' [] (Ok tt)).
Proof.
  cbv zeta. split; [|split].
  - intros Hnew. split; [now apply deliver_newer_state|].
    intros Hnet.
    unfold LinkStateRouter.deliverServiceMsg, LinkStateRouter.receiveServiceMsg, bind.
    erewrite process_newer by exact Hnew. cbn [result after emitted app].
    unfold LinkStateRouter._broadcastAnnouncement.
    change (for_each ?ns _) with
      (for_each ns (broadcast_to r (LinkStateAnnouncement seq origin links) sender)).
    rewrite (@broadcast_loop r (LinkStateAnnouncement seq origin links) sender _ _ Hnet).
    cbn [result emitted]. split; [reflexivity|].
    unfold flood_targets, targets_of. rewrite map_map. reflexivity.
  - intros Hstale. now apply deliver_stale.
  - intros msgs sender'. apply deliver_stale, seen_not_newer.
    apply deliver_all_keeps_seen.
    destruct (LinkStateRouter.newer seq
                (Dict.lookup origin (announcements (ext r)))) eqn:E.
    + unfold seen. erewrite deliver_newer_state by exact E. cbn.
      rewrite lookup_store_same. eauto.
    + erewrite deliver_stale by exact E.
      destruct (Dict.lookup origin (announcements (ext r))) as [s|] eqn:Hs;
        [|discriminate].
      exists s. split; [assumption|]. cbn in E. now apply Nat.ltb_ge in E.
Qed.

Lemma C7_announcements_flood_once_witness :
  let x := LinkStateRouter.deliverServiceMsg announcement_of_0 100%nat ls_router in
  (result x = Ok tt
   /\ emitted x
      = map (fun target => SendServiceMsg target announcement_of_0) [102%nat])
  /\ Dict.lookup 0%nat (network_graph (ext (after x))) = Some [(1%nat, 1)]
  /\ LinkStateRouter.deliverServiceMsg announcement_of_0 102%nat (after x)
     = Run (after x) [] (Ok tt).
Proof.
  cbv zeta.
  destruct (C7_announcements_flood_once ls_router 0 0%nat [(1%nat, 1)] 100%nat)
    as (Hnew & _ & Hagain).
  destruct (Hnew eq_refl) as (Hstate & Hflood).
  split; [|split].
  - apply Hflood. intros n Hn. cbn in Hn.
    destruct Hn as [<-|[<-|[]]]; discriminate.
  - unfold announcement_of_0. rewrite Hstate. reflexivity.
  - exact (Hagain [] 102%nat).
Defined.

(** ** SimpleQRouter: breaking and restoring a link *)

Lemma Q_entry_store_same n k val row (q : dict (dict Q)) :
  Q_entry n k (Dict.store n (Dict.store k val row) q) = Some val.
Proof. unfold Q_entry. rewrite lookup_store_same. apply lookup_store_same. Qed.

Lemma Q_entry_store_other n k val (q : dict (dict Q)) row m j :
  Dict.lookup n q = Some row ->
  m <> n \/ j <> k ->
  Q_entry m j (Dict.store n (Dict.store k val row) q) = Q_entry m j q.
Proof.
  intros Hrow Hne. unfold Q_entry. rewrite lookup_store.
  destruct (Nat.eqb_spec n m) as [<-|Hnm].
  - rewrite Hrow. apply lookup_store_other. destruct Hne; congruence.
  - reflexivity.
Qed.

Lemma store_keeps_present {V} k (v : V) d m :
  Dict.lookup m d <> None -> Dict.lookup m (Dict.store k v d) <> None.
Proof.
  intros H. rewrite lookup_store. destruct (Nat.eqb k m); [discriminate | exact H].
Qed.

Lemma store_wf {V} k (v : V) d : Dict.wf d -> Dict.wf (Dict.store k v d).
Proof.
  unfold Dict.wf. induction d as [|[k0 v0] d IH]; cbn; intros H.
  - constructor; [tauto | constructor].
  - inversion H as [|? ? Hnotin Hnodup]; subst.
    destruct (Nat.eqb_spec k k0) as [->|Hne]; cbn.
    + now constructor.
    + constructor; [|auto].
      intros Hin. apply Hnotin.
      apply lookup_in_keys in Hin as [w Hw].
      rewrite lookup_store_other in Hw by assumption.
      apply lookup_in_keys. eauto.
Qed.

(** What the fields of the subclass other than the Q-table and the stash of
    link [v] may do while the link is broken: nothing that matters to a later
    restore.  [kept v s s'] says that the stash of [v] is the same in [s'] as
    in [s] and that no destination has left the Q-table. *)
Definition kept (v : node) (s s' : SimpleQ) : Prop :=
  Dict.lookup v (broken_link_Qs s') = Dict.lookup v (broken_link_Qs s)
  /\ forall n, Dict.lookup n (Qtable s) <> None -> Dict.lookup n (Qtable s') <> None.

Lemma kept_refl v s : kept v s s.
Proof. split; auto. Qed.

Lemma kept_trans v s1 s2 s3 : kept v s1 s2 -> kept v s2 s3 -> kept v s1 s3.
Proof. intros [E1 K1] [E2 K2]. split; [congruence | auto]. Qed.

Section BreakRestore.
Variable v : node.

Lemma set_Q_entry_present n k val (s : SimpleQ) row :
  Dict.lookup n (Qtable s) = Some row ->
  SimpleQRouter.set_Q_entry n k val s
  = Run (set_Qtable s (Dict.store n (Dict.store k val row) (Qtable s))) [] (Ok tt).
Proof.
  intros H. unfold SimpleQRouter.set_Q_entry, bind, get, put, subscript.
  cbn. rewrite H. reflexivity.
Qed.

Lemma set_Q_entry_absent n k val (s : SimpleQ) :
  Dict.lookup n (Qtable s) = None ->
  SimpleQRouter.set_Q_entry n k val s = Run s [] (Raise KeyError).
Proof.
  intros H. unfold SimpleQRouter.set_Q_entry, bind, get, put, subscript.
  cbn. rewrite H. reflexivity.
Qed.

Lemma set_Q_entry_kept n k val s :
  kept v s (after (SimpleQRouter.set_Q_entry n k val s)).
Proof.
  destruct (Dict.lookup n (Qtable s)) as [row|] eqn:E.
  - erewrite set_Q_entry_present by exact E. cbn. split; [reflexivity|].
    intros m Hm. now apply store_keeps_present.
  - erewrite set_Q_entry_absent by exact E. apply kept_refl.
Qed.

(** The loop of [breakLink]: one step. *)
Lemma breakLink_loop_step n ns acc (s : SimpleQ) row val :
  Dict.lookup n (Qtable s) = Some row ->
  Dict.lookup v row = Some val ->
  SimpleQRouter.breakLink_loop v (n :: ns) acc s
  = SimpleQRouter.breakLink_loop v ns (Dict.store n val acc)
      (set_Qtable s (Dict.store n (Dict.store v sentinel row) (Qtable s))).
Proof.
  intros Hrow Hval. cbn [SimpleQRouter.breakLink_loop].
  unfold SimpleQRouter.set_Q_entry, bind, get, put, subscript, ret.
  cbn. rewrite Hrow. cbn. rewrite Hval. cbn. rewrite Hrow. cbn.
  destruct (SimpleQRouter.breakLink_loop v ns _ _); reflexivity.
Qed.

Lemma breakLink_loop_stuck n ns acc (s : SimpleQ) :
  Q_entry n v (Qtable s) = None ->
  SimpleQRouter.breakLink_loop v (n :: ns) acc s = Run s [] (Raise KeyError).
Proof.
  unfold Q_entry. intros H. cbn [SimpleQRouter.breakLink_loop].
  unfold bind, get, subscript. cbn.
  destruct (Dict.lookup n (Qtable s)) as [row|]; cbn; [|reflexivity].
  rewrite H. reflexivity.
Qed.

(** The loop of [breakLink] returns when every destination has an entry for
    [v]; it then has set those entries to the sentinel and collected what
    they were. *)
Lemma breakLink_loop_returns ns : forall acc (s : SimpleQ),
  (forall n, In n ns -> Q_entry n v (Qtable s) <> None) ->
  exists s' stash,
    SimpleQRouter.breakLink_loop v ns acc s = Run s' [] (Ok stash)
    /\ broken_link_Qs s' = broken_link_Qs s
    /\ (forall n, In n ns -> Q_entry n v (Qtable s') = Some sentinel)
    /\ (forall n, ~ In n ns -> Q_entry n v (Qtable s') = Q_entry n v (Qtable s))
    /\ (forall n, Dict.lookup n (Qtable s) <> None -> Dict.lookup n (Qtable s') <> None)
    /\ (forall n, ~ In n ns -> Dict.lookup n stash = Dict.lookup n acc)
    /\ (NoDup ns -> forall n, In n ns -> Dict.lookup n stash = Q_entry n v (Qtable s))
    /\ ((forall n, In n ns -> Q_entry n v (Qtable s) = Some sentinel) ->
        forall n, In n ns -> Dict.lookup n stash = Some sentinel)
    /\ (Dict.wf acc -> Dict.wf stash)
    /\ (forall n, In n (Dict.keys stash) -> In n ns \/ In n (Dict.keys acc)).
Proof.
  induction ns as [|n ns IH]; intros acc s Hall.
  - exists s, acc. cbn. repeat split; auto; tauto.
  - assert (Hn : Q_entry n v (Qtable s) <> None) by (apply Hall; now left).
    unfold Q_entry in Hn.
    destruct (Dict.lookup n (Qtable s)) as [row|] eqn:Hrow; [|congruence].
    destruct (Dict.lookup v row) as [val|] eqn:Hval; [|congruence].
    erewrite breakLink_loop_step; [|exact Hrow|exact Hval].
    set (s1 := set_Qtable s (Dict.store n (Dict.store v sentinel row) (Qtable s))).
    assert (Hother : forall m, m <> n ->
                       Q_entry m v (Qtable s1) = Q_entry m v (Qtable s)).
    { intros m Hm. cbn. apply Q_entry_store_other; auto. }
    assert (Hsame : Q_entry n v (Qtable s1) = Some sentinel).
    { cbn. apply Q_entry_store_same. }
    assert (Hval' : Q_entry n v (Qtable s) = Some val).
    { unfold Q_entry. now rewrite Hrow. }
    destruct (IH (Dict.store n val acc) s1)
      as (s' & stash & Hrun & Hb & Hset & Hrest & Hkeys & Hacc & Hnodup & Hsent
          & Hwf & Hin).
    { intros m Hm. destruct (Nat.eq_dec m n) as [->|Hne].
      - rewrite Hsame. discriminate.
      - rewrite Hother by assumption. apply Hall. now right. }
    exists s', stash. split; [exact Hrun|]. split; [exact Hb|].
    split; [|split; [|split; [|split; [|split; [|split; [|split]]]]]].
    + intros m [<-|Hm]; [|now apply Hset].
      destruct (in_dec Nat.eq_dec n ns) as [Hi|Hi]; [now apply Hset|].
      now rewrite Hrest.
    + intros m Hm. rewrite Hrest by (intros H; apply Hm; now right).
      apply Hother. intros ->. apply Hm. now left.
    + intros m Hm. apply Hkeys. cbn. now apply store_keeps_present.
    + intros m Hm. rewrite Hacc by (intros H; apply Hm; now right).
      apply lookup_store_other. intros ->. apply Hm. now left.
    + intros Hnd m Hm. inversion Hnd as [|? ? Hnotin Hnd']; subst.
      destruct Hm as [<-|Hm].
      * rewrite Hacc by assumption. rewrite lookup_store_same. now rewrite Hval'.
      * rewrite (Hnodup Hnd' m Hm). apply Hother. intros ->. contradiction.
    + intros Hs m Hm.
      assert (Hs1 : forall k, In k ns -> Q_entry k v (Qtable s1) = Some sentinel).
      { intros k Hk. destruct (Nat.eq_dec k n) as [->|Hne]; [exact Hsame|].
        rewrite Hother by assumption. apply Hs. now right. }
      destruct (in_dec Nat.eq_dec m ns) as [Hi|Hi]; [now apply Hsent|].
      destruct Hm as [<-|Hm]; [|contradiction].
      rewrite Hacc by assumption. rewrite lookup_store_same.
      rewrite <- Hval'. apply Hs. now left.
    + intros Hw. apply Hwf. now apply store_wf.
    + intros m Hm. destruct (Hin m Hm) as [H|H]; [left; now right|].
      apply lookup_in_keys in H as [w Hw]. rewrite lookup_store in Hw.
      destruct (Nat.eqb_spec n m) as [->|Hne]; [left; now left|].
      right. apply lookup_in_keys. eauto.
Qed.
End BreakRestore.

Lemma breakLink_loop_kept v w ns : forall acc s,
  kept v s (after (SimpleQRouter.breakLink_loop w ns acc s)).
Proof.
  induction ns as [|n ns IH]; intros acc s; [apply kept_refl|].
  destruct (Q_entry n w (Qtable s)) as [val|] eqn:E.
  - unfold Q_entry in E.
    destruct (Dict.lookup n (Qtable s)) as [row|] eqn:Hrow; [|discriminate].
    erewrite breakLink_loop_step; [|exact Hrow|exact E].
    eapply kept_trans; [|apply IH]. cbn. split; [reflexivity|].
    intros m Hm. now apply store_keeps_present.
  - erewrite breakLink_loop_stuck by exact E. apply kept_refl.
Qed.

(** ** What handling an event leaves in place *)

(** The configuration of the router is the same in [r'] as in [r], and no
    link has disappeared. *)
Definition frame {S} (r r' : Router S) : Prop :=
  overlord r' = overlord r /\ addr r' = addr r /\ network r' = network r
  /\ network_inv r' = network_inv r /\ neighbors r' = neighbors r
  /\ myAddress r' = myAddress r
  /\ forall n, Dict.lookup n (link_states r) <> None ->
               Dict.lookup n (link_states r') <> None.

Lemma frame_refl {S} (r : Router S) : frame r r.
Proof. unfold frame. repeat split; auto. Qed.

Lemma frame_trans {S} (r1 r2 r3 : Router S) : frame r1 r2 -> frame r2 r3 -> frame r1 r3.
Proof.
  unfold frame. intros (A1 & B1 & C1 & D1 & E1 & F1 & G1) (A2 & B2 & C2 & D2 & E2 & F2 & G2).
  repeat split; try congruence. auto.
Qed.

Section Invariance.
Context {S : Type}.
Variable strat : Strategy S.

(** A relation between the subclass fields before and after a hook. *)
Variable P : S -> S -> Prop.
Hypothesis P_refl : forall s, P s s.
Hypothesis P_trans : forall s1 s2 s3, P s1 s2 -> P s2 s3 -> P s1 s3.

Definition respects {A} (h : hook S A) : Prop := forall r, P (ext r) (after (h r)).

(** The hooks an event may call respect [P]. *)
Definition hooks_respect (ev : event) : Prop :=
  match ev with
  | ProcessPkgEvent _ sender contents =>
      respects (receivePackage strat sender contents)
      /\ respects (currentStateData strat contents)
      /\ respects (currentStateCols strat)
      /\ (forall pkg, respects (routePackage strat pkg))
      /\ (forall pkg, respects (sendToBrokenLink strat pkg))
  | LinkBreakMsg n => respects (breakLink strat n)
  | LinkRestoreMsg n => respects (restoreLink strat n)
  | _ => True
  end.

Definition step_ok (r r' : Router S) : Prop := frame r r' /\ P (ext r) (ext r').

Lemma step_ok_refl r : step_ok r r.
Proof. split; [apply frame_refl | apply P_refl]. Qed.

Lemma step_ok_trans r1 r2 r3 : step_ok r1 r2 -> step_ok r2 r3 -> step_ok r1 r3.
Proof.
  intros [F1 P1] [F2 P2]. split; [eapply frame_trans | eapply P_trans]; eauto.
Qed.

Lemma call_step_ok A (h : hook S A) r : respects h -> step_ok r (after (call h r)).
Proof.
  intros Hh. split; [|apply Hh]. unfold frame. cbn. repeat split; auto.
Qed.

Lemma store_link_step_ok (r : Router S) n ls :
  step_ok r (set_link_states r (Dict.store n ls (link_states r))).
Proof.
  split; [|apply P_refl]. unfold frame. cbn. repeat split; auto.
  intros m Hm. now apply store_keeps_present.
Qed.

Lemma transmit_step_ok n pkg r :
  respects (sendToBrokenLink strat pkg) ->
  step_ok r (after (transmit strat n pkg r)).
Proof.
  intros Hbroken.
  unfold transmit, bind, get, builtin, subscript, lift_outcome, put, emit, ret, raise.
  cbn. destruct (Dict.lookup n (link_states r)) as [ls|]; cbn;
    [|apply step_ok_refl].
  destruct (alive ls); cbn.
  - destruct (Dict.lookup n (network r)); cbn; [|apply step_ok_refl].
    destruct (Dict.lookup n (neighbors r)) as [params|]; cbn; [|apply step_ok_refl].
    destruct (py_div (size pkg) (bandwidth params)); cbn; [|apply step_ok_refl].
    apply store_link_step_ok.
  - now apply (call_step_ok (h := sendToBrokenLink strat pkg)).
Qed.

(** A computation whose every run is a [step_ok]. *)
Definition ok {A} (m : @RM S A) : Prop := forall r, step_ok r (after (m r)).

Lemma ok_bind A B (m : @RM S A) (f : A -> @RM S B) :
  ok m -> (forall a, ok (f a)) -> ok (bind m f).
Proof.
  intros Hm Hf r. rewrite after_bind.
  destruct (result (m r)); [|apply Hm].
  eapply step_ok_trans; [apply Hm | apply Hf].
Qed.

Lemma ok_call A (h : hook S A) : respects h -> ok (call h).
Proof. intros Hh r. now apply call_step_ok. Qed.

Lemma ok_quiet A (m : @RM S A) : (forall r, after (m r) = r) -> ok m.
Proof. intros H r. rewrite H. apply step_ok_refl. Qed.

Lemma ok_receive_and_trace sender c :
  respects (receivePackage strat sender c) ->
  respects (currentStateData strat c) ->
  respects (currentStateCols strat) ->
  ok (receive_and_trace strat sender c).
Proof.
  intros H1 H2 H3. unfold receive_and_trace.
  apply ok_bind; [now apply ok_call|]. intros _.
  apply ok_bind; [now apply ok_quiet|]. intros r1.
  apply ok_bind.
  - destruct (full_log r1); [|now apply ok_quiet].
    apply ok_bind; [now apply ok_call|]. intros data.
    apply ok_bind; [now apply ok_call|]. intros cols. now apply ok_quiet.
  - intros pkg. apply ok_bind; [now apply ok_quiet|]. intros _. now apply ok_quiet.
Qed.

Lemma dispatch_step_ok ev r :
  hooks_respect ev -> step_ok r (after (dispatch strat ev r)).
Proof.
  intros Hev. destruct ev as [t sd c|t sd c|n|n|]; cbn [dispatch].
  - split; [|apply P_refl]. unfold frame. cbn. repeat split; auto.
  - destruct Hev as (H1 & H2 & H3 & H4 & H5).
    revert r. apply ok_bind; [now apply ok_receive_and_trace|]. intros pkg.
    apply ok_bind; [now apply ok_quiet|]. intros r1.
    destruct (is_for_me r1 pkg).
    + unfold reportPkgDone. apply ok_bind; [now apply ok_quiet|]. intros r2.
      now apply ok_quiet.
    + unfold forward. apply ok_bind; [apply ok_call, H4|].
      intros [k|]; [|now apply ok_quiet].
      intros r2. apply transmit_step_ok, H5.
  - rewrite after_bind. cbn [get result after]. rewrite after_bind.
    unfold builtin, subscript.
    destruct (Dict.lookup n (link_states r)) as [ls|];
      cbn [ret raise result after]; [|apply step_ok_refl].
    rewrite after_bind. cbn [put result after].
    eapply step_ok_trans; [apply store_link_step_ok | now apply call_step_ok].
  - rewrite after_bind. cbn [get result after]. rewrite after_bind.
    unfold builtin, subscript.
    destruct (Dict.lookup n (link_states r)) as [ls|];
      cbn [ret raise result after]; [|apply step_ok_refl].
    rewrite after_bind. cbn [put result after].
    eapply step_ok_trans; [apply store_link_step_ok | now apply call_step_ok].
  - apply step_ok_refl.
Qed.

Lemma processEvent_step_ok ev r :
  hooks_respect ev -> step_ok r (after (processEvent strat ev r)).
Proof.
  intros Hev. unfold processEvent. destruct (isInitialized strat r); cbn.
  - now apply dispatch_step_ok.
  - apply step_ok_refl.
Qed.
End Invariance.

(** ** SimpleQRouter: what the hooks keep *)

Section Kept.
Variable v : node.

Lemma restore_loop_kept w items : forall s,
  kept v s
    (after (for_each items
              (fun item => SimpleQRouter.set_Q_entry (fst item) w (snd item)) s)).
Proof.
  induction items as [|item items IH]; intros s; [apply kept_refl|].
  cbn [for_each]. rewrite after_bind_any.
  destruct (result _).
  - eapply kept_trans; [apply set_Q_entry_kept | apply IH].
  - apply set_Q_entry_kept.
Qed.

(** The loop of [restoreLink] returns when every stashed destination is in
    the Q-table; it then has written the stashed values back. *)
Lemma restore_loop_returns w items : forall (s : SimpleQ),
  (forall n, In n (map fst items) -> Dict.lookup n (Qtable s) <> None) ->
  exists s',
    for_each items
      (fun item => SimpleQRouter.set_Q_entry (fst item) w (snd item)) s
    = Run s' [] (Ok tt)
    /\ broken_link_Qs s' = broken_link_Qs s
    /\ (NoDup (map fst items) ->
        forall n val, In (n, val) items -> Q_entry n w (Qtable s') = Some val)
    /\ (forall n, ~ In n (map fst items) ->
                  Q_entry n w (Qtable s') = Q_entry n w (Qtable s)).
Proof.
  induction items as [|[n val] items IH]; intros s Hall.
  - exists s. cbn. repeat split; auto. intros _ n val [].
  - assert (Hn : Dict.lookup n (Qtable s) <> None) by (apply Hall; now left).
    destruct (Dict.lookup n (Qtable s)) as [row|] eqn:Hrow; [|congruence].
    set (s1 := set_Qtable s (Dict.store n (Dict.store w val row) (Qtable s))).
    destruct (IH s1) as (s' & Hrun & Hb & Hnodup & Hrest).
    { intros m Hm. cbn. apply store_keeps_present. apply Hall. now right. }
    exists s'. split; [|split; [exact Hb|split]].
    + cbn [for_each fst snd]. unfold bind.
      erewrite set_Q_entry_present by exact Hrow. cbn [result after emitted].
      fold s1. rewrite Hrun. reflexivity.
    + intros Hnd m val' Hin. cbn in Hnd.
      inversion Hnd as [|? ? Hnotin Hnd']; subst.
      destruct Hin as [[= <- <-]|Hin]; [|now apply Hnodup].
      rewrite Hrest by assumption. cbn. apply Q_entry_store_same.
    + intros m Hm. cbn in Hm.
      rewrite Hrest by (intros H; apply Hm; now right).
      cbn. apply Q_entry_store_other; [assumption|].
      left. intros ->. apply Hm. now left.
Qed.

Lemma breakLink_kept (r : Router SimpleQ) w s :
  w <> v -> kept v s (after (SimpleQRouter.breakLink r w s)).
Proof.
  intros Hne. unfold SimpleQRouter.breakLink. rewrite after_bind_any.
  pose proof (breakLink_loop_kept v w (Dict.keys (network r)) Dict.empty s) as Hk.
  destruct (result _); [|exact Hk].
  eapply kept_trans; [exact Hk|].
  unfold bind, get, put. cbn. split; [|auto].
  cbn. now apply lookup_store_other.
Qed.

Lemma restoreLink_kept w s :
  w <> v -> kept v s (after (SimpleQRouter.restoreLink w s)).
Proof.
  intros Hne. unfold SimpleQRouter.restoreLink.
  rewrite after_bind_any. cbn [get result after].
  rewrite after_bind_any. unfold subscript.
  destruct (Dict.lookup w (broken_link_Qs s)) as [broken_Qs|];
    cbn [ret raise result after]; [|apply kept_refl].
  rewrite after_bind_any.
  pose proof (restore_loop_kept w (Dict.items broken_Qs) s) as Hk.
  destruct (result _); [|exact Hk].
  eapply kept_trans; [exact Hk|].
  rewrite after_bind_any. cbn [get result after].
  destruct (Dict.delete w (broken_link_Qs _)) as [b|] eqn:Hdel;
    cbn [put raise after]; [|apply kept_refl].
  split; [|auto]. cbn. eapply lookup_delete_other; eassumption.
Qed.

Lemma observe_kept sample s : kept v s (after (SimpleQRouter.observe sample s)).
Proof.
  destruct sample as [[d sender_addr] new_estimate].
  unfold SimpleQRouter.observe, bind, get, put, subscript, raise, ret. cbn.
  destruct (Dict.lookup d (Qtable s)) as [row|]; cbn; [|apply kept_refl].
  destruct (Dict.lookup sender_addr row); cbn; [|apply kept_refl].
  destruct (learning_rate s); cbn; [|apply kept_refl].
  split; [reflexivity|]. intros n Hn. now apply store_keeps_present.
Qed.

Lemma mkSample_keeps (r : Router SimpleQ) m prev sender s :
  after (SimpleQRouter.mkSample r m prev sender s) = s.
Proof.
  unfold SimpleQRouter.mkSample, bind, subscript, ret, raise.
  destruct m; try reflexivity.
  destruct (Dict.lookup sender (network_inv r)); cbn; [|reflexivity].
  destruct prev; reflexivity.
Qed.

Lemma receiveServiceMsg_kept (r : Router SimpleQ) m sender s :
  kept v s (after (SimpleQRouter.receiveServiceMsg r m sender s)).
Proof.
  unfold SimpleQRouter.receiveServiceMsg, SimpleQRouter.mkSample,
    SimpleQRouter.observe, bind, get, put, emit, subscript, raise, ret.
  destruct m as [| p ct est d | p |]; cbn; try apply kept_refl.
  - destruct (Dict.lookup p (reward_pending s)) as [[t0 d0]|]; cbn;
      (destruct (Dict.lookup sender (network_inv r)) as [nb|]; cbn;
       [|apply kept_refl]);
      [|apply kept_refl].
    destruct (Dict.lookup d (Qtable s)) as [row|]; cbn; [|apply kept_refl].
    destruct (Dict.lookup nb row); cbn; [|apply kept_refl].
    destruct (learning_rate s); cbn; [|apply kept_refl].
    split; [reflexivity|]. intros n Hn. now apply store_keeps_present.
  - destruct (Dict.lookup p (reward_pending s)); cbn; apply kept_refl.
Qed.

Lemma receivePackage_keeps (r : Router SimpleQ) sender pkg s :
  after (SimpleQRouter.receivePackage r sender pkg s) = s.
Proof.
  unfold SimpleQRouter.receivePackage, SimpleQRouter.mkRewardMsg, bind, get,
    subscript, lift_outcome, emit, ret, raise. cbn.
  destruct (match addr r with Some a => Nat.eqb a (dst pkg) | None => false end);
    cbn; [reflexivity|].
  destruct (Dict.lookup (dst pkg) (Qtable s)) as [row|]; cbn; [|reflexivity].
  destruct (dict_min row); reflexivity.
Qed.

Lemma routePackage_kept (r : Router SimpleQ) pkg s :
  kept v s (after (SimpleQRouter.routePackage r pkg s)).
Proof.
  unfold SimpleQRouter.routePackage, SimpleQRouter.act, SimpleQRouter.getState,
    bind, get, put, subscript, lift_outcome, ret, raise. cbn.
  destruct (Dict.lookup (dst pkg) (Qtable s)) as [row|]; cbn;
    [|split; cbn; auto].
  destruct (dict_min row); cbn; split; cbn; auto.
Qed.

(** Every hook an event other than a break or restore of [v] may call keeps
    the stash of [v] and the destinations of the Q-table. *)
Lemma hooks_keep ev :
  touches_link v (Event ev) = false ->
  hooks_respect SimpleQRouter.strategy (kept v) ev.
Proof.
  intros Hev. destruct ev as [t sd c|t sd c|n|n|]; cbn; auto.
  - split; [|split; [|split; [|split]]].
    + intros r. unfold SimpleQRouter.on_self. rewrite receivePackage_keeps.
      apply kept_refl.
    + intros r. apply kept_refl.
    + intros r. apply kept_refl.
    + intros pkg r. unfold SimpleQRouter.on_self. apply routePackage_kept.
    + intros pkg r. apply kept_refl.
  - intros r. unfold SimpleQRouter.on_self. apply breakLink_kept.
    cbn in Hev. now apply Nat.eqb_neq.
  - intros r. unfold SimpleQRouter.on_self. apply restoreLink_kept.
    cbn in Hev. now apply Nat.eqb_neq.
Qed.

Lemma handle_step_ok i (r : Router SimpleQ) :
  touches_link v i = false ->
  step_ok (kept v) r (SimpleQRouter_handle i r).
Proof.
  intros Hi. destruct i as [t|ev|m sender]; cbn [SimpleQRouter_handle].
  - split; [|apply kept_refl]. unfold frame. cbn. repeat split; auto.
  - apply processEvent_step_ok;
      [apply kept_refl | apply kept_trans | now apply hooks_keep].
  - unfold SimpleQRouter.deliverServiceMsg.
    apply call_step_ok. intros r0. unfold SimpleQRouter.on_self.
    apply receiveServiceMsg_kept.
Qed.

Lemma handle_all_step_ok inputs : forall (r : Router SimpleQ),
  forallb (fun i => negb (touches_link v i)) inputs = true ->
  step_ok (kept v) r (SimpleQRouter_handle_all inputs r).
Proof.
  induction inputs as [|i inputs IH]; intros r Hall.
  - split; [apply frame_refl | apply kept_refl].
  - cbn [forallb] in Hall. apply andb_prop in Hall as [Hi Hrest].
    apply negb_true_iff in Hi.
    change (SimpleQRouter_handle_all (i :: inputs) r)
      with (SimpleQRouter_handle_all inputs (SimpleQRouter_handle i r)).
    apply step_ok_trans with (SimpleQRouter_handle i r).
    + apply kept_trans.
    + now apply handle_step_ok.
    + now apply IH.
Qed.
End Kept.

(** ** SimpleQRouter: link events *)

Section LinkEvents.
Variable r : Router SimpleQ.
Variable v : node.

(** The router once the link's [alive] flag is set to [flag]. *)
Definition flagged (ls : link_state) (flag : bool) : Router SimpleQ :=
  set_link_states r (Dict.store v (mkLinkState (transfer_time ls) flag) (link_states r)).

Lemma processEvent_break ls :
  Router_isInitialized r = true ->
  Dict.lookup v (link_states r) = Some ls ->
  processEvent SimpleQRouter.strategy (LinkBreakMsg v) r
  = let x := SimpleQRouter.breakLink r v (ext r) in
    Run (set_ext (flagged ls false) (after x)) (map lift_action (emitted x))
        (match result x with Ok a => Ok a | Raise e => Raise (Builtin e) end).
Proof.
  intros Hinit Hls. unfold processEvent. cbn [isInitialized SimpleQRouter.strategy].
  rewrite Hinit. cbn [negb dispatch].
  unfold bind at 1 2 3. unfold get, builtin, subscript, put, call, ret.
  cbn [result after emitted app]. rewrite Hls.
  cbn [result after emitted app breakLink SimpleQRouter.strategy].
  unfold SimpleQRouter.on_self, SimpleQRouter.breakLink, flagged.
  cbn [ext network set_link_states set_ext].
  match goal with
  | |- context [result ?x] => destruct x as [s o [[]|e]]
  end; reflexivity.
Qed.

Lemma processEvent_restore ls :
  Router_isInitialized r = true ->
  Dict.lookup v (link_states r) = Some ls ->
  processEvent SimpleQRouter.strategy (LinkRestoreMsg v) r
  = let x := SimpleQRouter.restoreLink v (ext r) in
    Run (set_ext (flagged ls true) (after x)) (map lift_action (emitted x))
        (match result x with Ok a => Ok a | Raise e => Raise (Builtin e) end).
Proof.
  intros Hinit Hls. unfold processEvent. cbn [isInitialized SimpleQRouter.strategy].
  rewrite Hinit. cbn [negb dispatch].
  unfold bind at 1 2 3. unfold get, builtin, subscript, put, call, ret.
  cbn [result after emitted app]. rewrite Hls.
  cbn [result after emitted app restoreLink SimpleQRouter.strategy].
  unfold SimpleQRouter.on_self, flagged.
  cbn [ext network set_link_states set_ext].
  destruct (SimpleQRouter.restoreLink v (ext r)) as [s o [[]|e]]; reflexivity.
Qed.

Lemma processEvent_no_link ev :
  Router_isInitialized r = true ->
  ev = LinkBreakMsg v \/ ev = LinkRestoreMsg v ->
  Dict.lookup v (link_states r) = None ->
  processEvent SimpleQRouter.strategy ev r = Run r [] (Raise (Builtin KeyError)).
Proof.
  intros Hinit Hev Hls. unfold processEvent. cbn [isInitialized SimpleQRouter.strategy].
  rewrite Hinit. cbn [negb].
  destruct Hev as [-> | ->]; cbn [dispatch];
    unfold bind, get, builtin, subscript, put, call, raise; cbn; rewrite Hls;
    reflexivity.
Qed.
End LinkEvents.

Lemma restoreLink_no_stash v (s : SimpleQ) :
  Dict.lookup v (broken_link_Qs s) = None ->
  SimpleQRouter.restoreLink v s = Run s [] (Raise KeyError).
Proof.
  intros H. unfold SimpleQRouter.restoreLink, bind, get, subscript, raise.
  cbn. rewrite H. reflexivity.
Qed.

(** [restoreLink] returns when the stash of [v] exists and every stashed
    destination is in the Q-table; it writes the stashed values back and
    deletes the stash. *)
Lemma restoreLink_returns v (s : SimpleQ) stash :
  Dict.lookup v (broken_link_Qs s) = Some stash ->
  (forall n, In n (Dict.keys stash) -> Dict.lookup n (Qtable s) <> None) ->
  exists s' b,
    SimpleQRouter.restoreLink v s = Run (set_broken_link_Qs s' b) [] (Ok tt)
    /\ Dict.delete v (broken_link_Qs s) = Some b
    /\ (Dict.wf stash ->
        forall n val, Dict.lookup n stash = Some val ->
                      Q_entry n v (Qtable s') = Some val).
Proof.
  intros Hstash Hkeys.
  destruct (restore_loop_returns v (Dict.items stash) s Hkeys)
    as (s' & Hrun & Hb & Hnodup & _).
  destruct (delete_present _ _ Hstash) as [b Hdel].
  exists s', b. split; [|split; [exact Hdel|]].
  - unfold SimpleQRouter.restoreLink, bind, get, subscript. cbn.
    rewrite Hstash. cbn. rewrite Hrun. cbn. rewrite Hb, Hdel. reflexivity.
  - intros Hwf n val Hn. apply Hnodup; [exact Hwf|]. now apply lookup_in_items.
Qed.

Lemma breakLink_loop_precondition v ns : forall acc (s s' : SimpleQ) o stash,
  SimpleQRouter.breakLink_loop v ns acc s = Run s' o (Ok stash) ->
  forall n, In n ns -> Q_entry n v (Qtable s) <> None.
Proof.
  induction ns as [|n ns IH]; intros acc s s' o stash Hrun m Hm; [destruct Hm|].
  destruct (Q_entry n v (Qtable s)) as [val|] eqn:E.
  2:{ erewrite breakLink_loop_stuck in Hrun by exact E. discriminate. }
  destruct Hm as [<-|Hm]; [congruence|].
  destruct (Nat.eq_dec m n) as [->|Hne]; [congruence|].
  pose proof E as E'. unfold Q_entry in E'.
  destruct (Dict.lookup n (Qtable s)) as [row|] eqn:Hrow; [|discriminate].
  erewrite breakLink_loop_step in Hrun; [|exact Hrow|exact E'].
  specialize (IH _ _ _ _ _ Hrun m Hm). cbn in IH.
  rewrite Q_entry_store_other in IH; auto.
Qed.

(** What a [LinkBreakMsg] that is handled without an exception has done. *)
Lemma break_handled (r : Router SimpleQ) v :
  result (processEvent SimpleQRouter.strategy (LinkBreakMsg v) r) = Ok tt ->
  let broken := after (processEvent SimpleQRouter.strategy (LinkBreakMsg v) r) in
  Router_isInitialized r = true
  /\ frame r broken
  /\ Dict.lookup v (link_states r) <> None
  /\ exists s1 stash,
      SimpleQRouter.breakLink_loop v (Dict.keys (network r)) Dict.empty (ext r)
      = Run s1 [] (Ok stash)
      /\ Qtable (ext broken) = Qtable s1
      /\ Dict.lookup v (broken_link_Qs (ext broken)) = Some stash.
Proof.
  intros Hres. cbv zeta.
  assert (Hinit : Router_isInitialized r = true).
  { unfold processEvent in Hres. cbn [isInitialized SimpleQRouter.strategy] in Hres.
    destruct (Router_isInitialized r); [reflexivity | discriminate]. }
  destruct (Dict.lookup v (link_states r)) as [ls|] eqn:Hls.
  2:{ erewrite processEvent_no_link in Hres;
        [discriminate | exact Hinit | left; reflexivity | exact Hls]. }
  assert (Hall : forall n, In n (Dict.keys (network r)) ->
                           Q_entry n v (Qtable (ext r)) <> None).
  { erewrite processEvent_break in Hres; [|exact Hinit|exact Hls]. cbn in Hres.
    unfold SimpleQRouter.breakLink in Hres. unfold bind at 1 in Hres.
    destruct (SimpleQRouter.breakLink_loop v (Dict.keys (network r)) Dict.empty (ext r))
      as [s1 o [stash|e]] eqn:Hloop; [|discriminate].
    eapply breakLink_loop_precondition. exact Hloop. }
  destruct (breakLink_loop_returns v (Dict.keys (network r)) Dict.empty (ext r) Hall)
    as (s1 & stash & Hloop & _).
  erewrite processEvent_break; [|exact Hinit|exact Hls]. cbn.
  unfold SimpleQRouter.breakLink, bind. rewrite Hloop. cbn.
  split; [exact Hinit|]. split.
  { unfold frame. cbn. repeat split; auto.
    intros n Hn. now apply store_keeps_present. }
  split; [discriminate|].
  exists s1, stash. split; [reflexivity|]. split; [reflexivity|].
  apply lookup_store_same.
Qed.

(** What the loop of [breakLink] has done when it returned. *)
Lemma breakLink_loop_returned v ns (s s1 : SimpleQ) o stash :
  SimpleQRouter.breakLink_loop v ns Dict.empty s = Run s1 o (Ok stash) ->
  (forall n, In n ns -> Q_entry n v (Qtable s) <> None)
  /\ (forall n, In n ns -> Q_entry n v (Qtable s1) = Some sentinel)
  /\ (NoDup ns -> forall n, In n ns -> Dict.lookup n stash = Q_entry n v (Qtable s))
  /\ ((forall n, In n ns -> Q_entry n v (Qtable s) = Some sentinel) ->
      forall n, In n ns -> Dict.lookup n stash = Some sentinel)
  /\ Dict.wf stash
  /\ (forall n, In n (Dict.keys stash) -> In n ns).
Proof.
  intros Hloop.
  pose proof (breakLink_loop_precondition _ _ _ _ Hloop) as Hall.
  destruct (breakLink_loop_returns v ns Dict.empty s Hall)
    as (s1' & stash' & Hrun & _ & Hset & _ & _ & _ & Hnodup & Hsent & Hwf & Hin).
  rewrite Hloop in Hrun. injection Hrun as -> _ ->.
  repeat split; auto.
  - apply Hwf. constructor.
  - intros n Hn. destruct (Hin n Hn) as [H|[]]. exact H.
Qed.

Lemma break_returns (r : Router SimpleQ) v :
  Router_isInitialized r = true ->
  Dict.lookup v (link_states r) <> None ->
  (forall n, In n (Dict.keys (network r)) -> Q_entry n v (Qtable (ext r)) <> None) ->
  result (processEvent SimpleQRouter.strategy (LinkBreakMsg v) r) = Ok tt.
Proof.
  intros Hinit Hlink Hall.
  destruct (Dict.lookup v (link_states r)) as [ls|] eqn:Hls; [|congruence].
  destruct (breakLink_loop_returns v (Dict.keys (network r)) Dict.empty (ext r) Hall)
    as (s1 & stash & Hloop & _).
  erewrite processEvent_break; [|exact Hinit|exact Hls]. cbn.
  unfold SimpleQRouter.breakLink, bind. rewrite Hloop. reflexivity.
Qed.

Lemma restore_returns (r : Router SimpleQ) v stash :
  Router_isInitialized r = true ->
  Dict.lookup v (link_states r) <> None ->
  Dict.lookup v (broken_link_Qs (ext r)) = Some stash ->
  Dict.wf stash ->
  (forall n, In n (Dict.keys stash) -> Dict.lookup n (Qtable (ext r)) <> None) ->
  let x := processEvent SimpleQRouter.strategy (LinkRestoreMsg v) r in
  result x = Ok tt
  /\ (forall n val, Dict.lookup n stash = Some val ->
                    Q_entry n v (Qtable (ext (after x))) = Some val)
  /\ Dict.delete v (broken_link_Qs (ext r)) = Some (broken_link_Qs (ext (after x))).
Proof.
  intros Hinit Hlink Hstash Hwf Hkeys. cbv zeta.
  destruct (Dict.lookup v (link_states r)) as [ls|] eqn:Hls; [|congruence].
  destruct (restoreLink_returns v (ext r) Hstash Hkeys) as (s' & b & Hrun & Hdel & Hvals).
  erewrite processEvent_restore; [|exact Hinit|exact Hls]. cbv zeta.
  rewrite Hrun. cbn. repeat split; auto.
Qed.

Lemma Q_entry_present n k (q : dict (dict Q)) :
  Q_entry n k q <> None -> Dict.lookup n q <> None.
Proof. unfold Q_entry. destruct (Dict.lookup n q); congruence. Qed.

Lemma frame_initialized {S} (r r' : Router S) :
  frame r r' -> Router_isInitialized r = true -> Router_isInitialized r' = true.
Proof. intros (H & _). unfold Router_isInitialized. now rewrite H. Qed.

(** C6. A SimpleQRouter that has handled [LinkBreak(v)] and then any inputs
    other than a break or a restore of [v] (rewards among them) handles
    [LinkRestore(v)] without an exception, and [Q[n][v]] is then, for every
    destination [n] of the network, exactly what it was before the break.
    Meanwhile the break had set those entries to 100500 and stashed their
    values; the restore deletes the stash. *)
Theorem C6_break_then_restore_round_trip
    (r : Router SimpleQ) (v : node) (inputs : list input) :
  Dict.wf (network r) ->
  result (processEvent SimpleQRouter.strategy (LinkBreakMsg v) r) = Ok tt ->
  forallb (fun i => negb (touches_link v i)) inputs = true ->
  let broken := after (processEvent SimpleQRouter.strategy (LinkBreakMsg v) r) in
  let later := SimpleQRouter_handle_all inputs broken in
  let x := processEvent SimpleQRouter.strategy (LinkRestoreMsg v) later in
  (forall n, In n (Dict.keys (network r)) ->
             Q_entry n v (Qtable (ext broken)) = Some sentinel)
  /\ (exists stash,
         Dict.lookup v (broken_link_Qs (ext broken)) = Some stash
         /\ forall n, In n (Dict.keys (network r)) ->
                      Dict.lookup n stash = Q_entry n v (Qtable (ext r)))
  /\ result x = Ok tt
  /\ (forall n, In n (Dict.keys (network r)) ->
                Q_entry n v (Qtable (ext (after x))) = Q_entry n v (Qtable (ext r)))
  /\ Dict.delete v (broken_link_Qs (ext later))
     = Some (broken_link_Qs (ext (after x))).
Proof.
  intros Hwf Hbreak Hinputs. cbv zeta.
  destruct (break_handled r v Hbreak)
    as (Hinit & Hframe & Hlink & s1 & stash & Hloop & HQ & Hstash).
  destruct (breakLink_loop_returned _ _ _ Hloop)
    as (Hall & Hset & Hnodup & _ & Hwfs & Hin).
  set (broken := after (processEvent SimpleQRouter.strategy (LinkBreakMsg v) r)) in *.
  destruct (handle_all_step_ok v inputs broken Hinputs) as [Hframe' [Hkept HkeptQ]].
  set (later := SimpleQRouter_handle_all inputs broken) in *.
  assert (Hlater : frame r later) by (eapply frame_trans; eassumption).
  destruct (@restore_returns later v stash) as (Hres & Hvals & Hdel).
  - eapply frame_initialized; eassumption.
  - destruct Hlater as (_ & _ & _ & _ & _ & _ & Hlinks). now apply Hlinks.
  - rewrite Hkept. exact Hstash.
  - exact Hwfs.
  - intros n Hn. apply HkeptQ. rewrite HQ.
    apply Q_entry_present with v. rewrite (Hset n (Hin n Hn)). discriminate.
  - split; [|split; [|split; [|split]]].
    + intros n Hn. rewrite HQ. now apply Hset.
    + exists stash. split; [exact Hstash|]. now apply Hnodup.
    + exact Hres.
    + intros n Hn.
      destruct (Q_entry n v (Qtable (ext r))) as [val|] eqn:E;
        [|exfalso; now apply (Hall n Hn)].
      apply Hvals. rewrite (Hnodup Hwf n Hn). exact E.
    + exact Hdel.
Qed.

(** C10. On an initialised SimpleQRouter, a [LinkRestore(v)] for which no
    stash is pending raises [KeyError].  After two [LinkBreak(v)] in a row
    the stash of [v] holds the sentinel 100500 for every destination, and
    the [LinkRestore(v)] that follows sets every [Q[n][v]] to the sentinel:
    the values from before the first break are gone. *)
Theorem C10_restore_and_break_out_of_turn (r : Router SimpleQ) (v : node) :
  Router_isInitialized r = true ->
  (Dict.lookup v (broken_link_Qs (ext r)) = None ->
   result (processEvent SimpleQRouter.strategy (LinkRestoreMsg v) r)
   = Raise (Builtin KeyError))
  /\ (let x1 := processEvent SimpleQRouter.strategy (LinkBreakMsg v) r in
      let x2 := processEvent SimpleQRouter.strategy (LinkBreakMsg v) (after x1) in
      let x3 := processEvent SimpleQRouter.strategy (LinkRestoreMsg v) (after x2) in
      result x1 = Ok tt ->
      result x2 = Ok tt
      /\ (exists stash,
             Dict.lookup v (broken_link_Qs (ext (after x2))) = Some stash
             /\ forall n, In n (Dict.keys (network r)) ->
                          Dict.lookup n stash = Some sentinel)
      /\ result x3 = Ok tt
      /\ forall n, In n (Dict.keys (network r)) ->
                   Q_entry n v (Qtable (ext (after x3))) = Some sentinel).
Proof.
  intros Hinit. split.
  - intros Hnone.
    destruct (Dict.lookup v (link_states r)) as [ls|] eqn:Hls.
    + erewrite processEvent_restore; [|exact Hinit|exact Hls]. cbv zeta.
      now rewrite restoreLink_no_stash.
    + erewrite processEvent_no_link;
        [reflexivity | exact Hinit | right; reflexivity | exact Hls].
  - cbv zeta. intros Hbreak1.
    destruct (break_handled r v Hbreak1)
      as (_ & Hframe1 & Hlink & s1 & stash1 & Hloop1 & HQ1 & _).
    destruct (breakLink_loop_returned _ _ _ Hloop1) as (_ & Hset1 & _).
    set (r1 := after (processEvent SimpleQRouter.strategy (LinkBreakMsg v) r)) in *.
    assert (Hnet1 : network r1 = network r) by apply Hframe1.
    assert (Hinit1 : Router_isInitialized r1 = true)
      by (eapply frame_initialized; eassumption).
    assert (Hsent1 : forall n, In n (Dict.keys (network r1)) ->
                               Q_entry n v (Qtable (ext r1)) = Some sentinel).
    { intros n Hn. rewrite HQ1. apply Hset1. now rewrite <- Hnet1. }
    assert (Hbreak2 : result (processEvent SimpleQRouter.strategy (LinkBreakMsg v) r1)
                      = Ok tt).
    { apply break_returns; [exact Hinit1 | |].
      - destruct Hframe1 as (_ & _ & _ & _ & _ & _ & Hlinks). now apply Hlinks.
      - intros n Hn. rewrite (Hsent1 n Hn). discriminate. }
    destruct (break_handled r1 v Hbreak2)
      as (_ & Hframe2 & Hlink1 & s2 & stash2 & Hloop2 & HQ2 & Hstash2).
    destruct (breakLink_loop_returned _ _ _ Hloop2)
      as (_ & Hset2 & _ & Hsent2 & Hwf2 & Hin2).
    set (r2 := after (processEvent SimpleQRouter.strategy (LinkBreakMsg v) r1)) in *.
    destruct (@restore_returns r2 v stash2) as (Hres & Hvals & _).
    + eapply frame_initialized; eassumption.
    + destruct Hframe2 as (_ & _ & _ & _ & _ & _ & Hlinks). now apply Hlinks.
    + exact Hstash2.
    + exact Hwf2.
    + intros n Hn. rewrite HQ2. apply Q_entry_present with v.
      rewrite (Hset2 n (Hin2 n Hn)). discriminate.
    + split; [exact Hbreak2|]. split; [|split; [exact Hres|]].
      * exists stash2. split; [exact Hstash2|].
        intros n Hn. apply (Hsent2 Hsent1). now rewrite Hnet1.
      * intros n Hn. apply Hvals. apply (Hsent2 Hsent1). now rewrite Hnet1.
Qed.

Lemma line_router_network_wf : Dict.wf (network line_router).
Proof.
  unfold Dict.wf. cbn. repeat constructor; cbn; intuition discriminate.
Qed.

Lemma C6_break_then_restore_round_trip_witness :
  let broken := after (processEvent SimpleQRouter.strategy (LinkBreakMsg 2%nat)
                         line_router) in
  let later := SimpleQRouter_handle_all while_broken broken in
  let x := processEvent SimpleQRouter.strategy (LinkRestoreMsg 2%nat) later in
  (forall n, In n (Dict.keys (network line_router)) ->
             Q_entry n 2%nat (Qtable (ext broken)) = Some sentinel)
  /\ (exists stash,
         Dict.lookup 2%nat (broken_link_Qs (ext broken)) = Some stash
         /\ forall n, In n (Dict.keys (network line_router)) ->
                      Dict.lookup n stash
                      = Q_entry n 2%nat (Qtable (ext line_router)))
  /\ result x = Ok tt
  /\ (forall n, In n (Dict.keys (network line_router)) ->
                Q_entry n 2%nat (Qtable (ext (after x)))
                = Q_entry n 2%nat (Qtable (ext line_router)))
  /\ Dict.delete 2%nat (broken_link_Qs (ext later))
     = Some (broken_link_Qs (ext (after x))).
Proof.
  apply (@C6_break_then_restore_round_trip line_router 2%nat while_broken).
  - exact line_router_network_wf.
  - reflexivity.
  - reflexivity.
Defined.

Lemma C10_restore_and_break_out_of_turn_witness :
  (Dict.lookup 2%nat (broken_link_Qs (ext line_router)) = None ->
   result (processEvent SimpleQRouter.strategy (LinkRestoreMsg 2%nat) line_router)
   = Raise (Builtin KeyError))
  /\ (let x1 := processEvent SimpleQRouter.strategy (LinkBreakMsg 2%nat) line_router in
      let x2 := processEvent SimpleQRouter.strategy (LinkBreakMsg 2%nat) (after x1) in
      let x3 := processEvent SimpleQRouter.strategy (LinkRestoreMsg 2%nat) (after x2) in
      result x1 = Ok tt ->
      result x2 = Ok tt
      /\ (exists stash,
             Dict.lookup 2%nat (broken_link_Qs (ext (after x2))) = Some stash
             /\ forall n, In n (Dict.keys (network line_router)) ->
                          Dict.lookup n stash = Some sentinel)
      /\ result x3 = Ok tt
      /\ forall n, In n (Dict.keys (network line_router)) ->
                   Q_entry n 2%nat (Qtable (ext (after x3))) = Some sentinel).
Proof.
  apply (@C10_restore_and_break_out_of_turn line_router 2%nat). reflexivity.
Defined.

(** On the line network: the value 40 of [Q[2][2]] survives a break and a
    restore, and is lost to a second break. *)
Lemma line_router_break_restore :
  Q_entry 2%nat 2%nat (Qtable (ext line_router)) = Some 40
  /\ Q_entry 2%nat 2%nat
       (Qtable (ext (after (processEvent SimpleQRouter.strategy (LinkRestoreMsg 2%nat)
                              (SimpleQRouter_handle_all while_broken
                                 (after (processEvent SimpleQRouter.strategy
                                           (LinkBreakMsg 2%nat) line_router)))))))
     = Some 40
  /\ Q_entry 2%nat 2%nat
       (Qtable (ext (SimpleQRouter_handle_all
                       [Event (LinkBreakMsg 2%nat); Event (LinkBreakMsg 2%nat);
                        Event (LinkRestoreMsg 2%nat)] line_router)))
     = Some sentinel.
Proof. repeat split; reflexivity. Qed.

(** * Further properties of the code *)

(** ** Initialisation *)

Lemma lookup_fold_store {V} (g : nat -> V) ks : forall (d : dict V) n,
  Dict.lookup n (fold_left (fun d k => Dict.store k (g k) d) ks d)
  = if existsb (Nat.eqb n) ks then Some (g n) else Dict.lookup n d.
Proof.
  induction ks as [|k ks IH]; intros d n; cbn [fold_left existsb]; [reflexivity|].
  rewrite IH, lookup_store.
  destruct (existsb (Nat.eqb n) ks); [now rewrite orb_true_r|].
  rewrite orb_false_r, (Nat.eqb_sym n k).
  destruct (Nat.eqb_spec k n) as [->|]; reflexivity.
Qed.

Lemma existsb_eqb_in n ks : existsb (Nat.eqb n) ks = true <-> In n ks.
Proof.
  rewrite existsb_exists. split.
  - intros (k & Hk & E). apply Nat.eqb_eq in E. now subst.
  - intros H. exists n. split; [assumption | apply Nat.eqb_refl].
Qed.

(** [Router.initialize]: the router is initialised, knows its address, and
    every neighbour of the message has a link that is alive with
    [transfer_time] 0, whatever the link's state was; a link of no
    neighbour is left as it was. *)
Theorem initialize_sets_links {S} (message : RouterInitMsg) (sender : actor)
    (r : Router S) (n : node) :
  let r' := Router_initialize message sender r in
  Router_isInitialized r' = true
  /\ overlord r' = Some sender
  /\ addr r' = Some (network_addr message)
  /\ (In n (Dict.keys (init_neighbors message)) ->
      Dict.lookup n (link_states r') = Some (mkLinkState 0 true))
  /\ (~ In n (Dict.keys (init_neighbors message)) ->
      Dict.lookup n (link_states r') = Dict.lookup n (link_states r)).
Proof.
  cbv zeta. unfold Router_initialize, Router_isInitialized. cbn.
  rewrite (lookup_fold_store (fun _ => mkLinkState 0 true)).
  repeat split.
  - intros Hin. apply existsb_eqb_in in Hin. now rewrite Hin.
  - intros Hin. destruct (existsb (Nat.eqb n) _) eqn:E; [|reflexivity].
    apply existsb_eqb_in in E. contradiction.
Qed.

Lemma lookup_fold_inverse items : forall (inv : dict node) t,
  ~ In t (map snd items) ->
  Dict.lookup t
    (fold_left (fun inv (item : node * actor) => Dict.store (snd item) (fst item) inv)
               items inv)
  = Dict.lookup t inv.
Proof.
  induction items as [|[a0 t0] items IH]; intros inv t Hnotin; [reflexivity|].
  cbn [fold_left fst snd]. cbn in Hnotin.
  rewrite IH by tauto. apply lookup_store_other. tauto.
Qed.

Lemma lookup_fold_inverse_in items : forall (inv : dict node) a t,
  NoDup (map snd items) ->
  In (a, t) items ->
  Dict.lookup t
    (fold_left (fun inv (item : node * actor) => Dict.store (snd item) (fst item) inv)
               items inv)
  = Some a.
Proof.
  induction items as [|[a0 t0] items IH]; intros inv a t Hnodup Hin;
    [destruct Hin|].
  cbn [fold_left fst snd]. cbn in Hnodup.
  inversion Hnodup as [|? ? Hnotin Hnodup']; subst.
  destruct Hin as [[= -> ->]|Hin].
  - rewrite lookup_fold_inverse by assumption. apply lookup_store_same.
  - now apply IH.
Qed.

(** [Router.initialize] builds [network_inv] as the inverse of [network]:
    when no two nodes share an actor, the actor of node [a] is mapped back
    to [a]. *)
Theorem initialize_inverts_network {S} (message : RouterInitMsg) (sender : actor)
    (r : Router S) (a : node) (target : actor) :
  NoDup (Dict.values (init_network message)) ->
  Dict.lookup a (init_network message) = Some target ->
  Dict.lookup target (network_inv (Router_initialize message sender r)) = Some a.
Proof.
  intros Hnodup Hlookup. cbn [Router_initialize network_inv].
  apply lookup_in_items in Hlookup.
  now apply lookup_fold_inverse_in.
Qed.

Lemma initialize_inverts_network_witness :
  Dict.lookup 102%nat (network_inv line_router) = Some 2%nat.
Proof.
  apply (@initialize_inverts_network SimpleQ (line_init (1 # 2)) 999%nat
           fresh_router 2%nat 102%nat).
  - cbn. repeat constructor; cbn; intuition discriminate.
  - reflexivity.
Defined.

(** [SimpleQRouter.initialize] with a [SimpleQRouterInitMsg]: the learning
    rate is the message's, and for every destination [n] of the network and
    every neighbour [k], [Q[n][k]] is 40 when [k] is [n] itself and 100500
    otherwise. *)
Theorem initialize_bootstraps_Q (message : RouterInitMsg) (sender : actor)
    (r : Router SimpleQ) (lr : Q) (n k : node) :
  init_learning_rate message = Some lr ->
  In n (Dict.keys (init_network message)) ->
  In k (Dict.keys (init_neighbors message)) ->
  let r' := SimpleQRouter.initialize message sender r in
  learning_rate (ext r') = Some lr
  /\ Q_entry n k (Qtable (ext r')) = Some (if Nat.eqb k n then 40 else 100500).
Proof.
  intros Hlr Hn Hk. cbv zeta. unfold SimpleQRouter.initialize. rewrite Hlr.
  cbn [ext set_ext learning_rate Qtable Router_initialize network neighbors].
  split; [reflexivity|]. unfold Q_entry.
  rewrite (lookup_fold_store
             (fun n => fold_left
                         (fun row k => Dict.store k (if Nat.eqb k n then 40 else 100500) row)
                         (Dict.keys (init_neighbors message)) Dict.empty)).
  apply existsb_eqb_in in Hn. rewrite Hn.
  rewrite (lookup_fold_store (fun k => if Nat.eqb k n then 40 else 100500)).
  apply existsb_eqb_in in Hk. now rewrite Hk.
Qed.

Lemma initialize_bootstraps_Q_witness :
  learning_rate (ext line_router) = Some (1 # 2)
  /\ Q_entry 0%nat 2%nat (Qtable (ext line_router))
     = Some (if Nat.eqb 2 0 then 40 else 100500).
Proof.
  apply (@initialize_bootstraps_Q (line_init (1 # 2)) 999%nat fresh_router
           (1 # 2) 0%nat 2%nat).
  - reflexivity.
  - cbn. auto.
  - cbn. auto.
Defined.

Lemma initialize_sets_links_witness :
  let r' := Router_initialize (line_init (1 # 2)) 999%nat fresh_router in
  Router_isInitialized r' = true
  /\ overlord r' = Some 999%nat
  /\ addr r' = Some 1%nat
  /\ (In 2%nat (Dict.keys (init_neighbors (line_init (1 # 2)))) ->
      Dict.lookup 2%nat (link_states r') = Some (mkLinkState 0 true))
  /\ (~ In 2%nat (Dict.keys (init_neighbors (line_init (1 # 2)))) ->
      Dict.lookup 2%nat (link_states r')
      = Dict.lookup 2%nat (link_states fresh_router)).
Proof.
  exact (@initialize_sets_links SimpleQ (line_init (1 # 2)) 999%nat
           fresh_router 2%nat).
Defined.

(** ** The node's processing queue *)

Section ProcessingQueue.
Context {S : Type}.
Variable strat : Strategy S.



End ProcessingQueue.


(** ** Links that are down *)

Section DeadLinks.
Context {S : Type}.
Variable strat : Strategy S.

Lemma transmit_dead n pkg (r : Router S) ls :
  Dict.lookup n (link_states r) = Some ls ->
  alive ls = false ->
  transmit strat n pkg r = call (sendToBrokenLink strat pkg) r.
Proof.
  intros Hls Halive.
  unfold transmit, bind, get, builtin, subscript. cbn. rewrite Hls. cbn.
  rewrite Halive.
  destruct (call (sendToBrokenLink strat pkg) r) as [r' o [[]|e]]; reflexivity.
Qed.

(** A package routed to a neighbour whose link is not alive is handed to
    [sendToBrokenLink]; where that method is the base class's [pass] (as in
    [Router] and [SimpleQRouter]) the package is dropped without a trace:
    the event is handled without an exception, no packet event is scheduled,
    no completion is reported, and the links are as they were. *)
Theorem package_for_a_dead_link_is_dropped
    t sender contents n (r r2 : Router S) pre pkg ls :
  routes_to strat r sender contents n r2 pre pkg ->
  Dict.lookup n (link_states r) = Some ls ->
  alive ls = false ->
  sendToBrokenLink strat pkg = pass tt ->
  let x := processEvent strat (ProcessPkgEvent t sender contents) r in
  x = Run r2 pre (Ok tt)
  /\ filter is_packet_event (emitted x) = []
  /\ filter is_report (emitted x) = []
  /\ link_states (after x) = link_states r.
Proof.
  intros Hroute Hls Halive Hpass. cbv zeta.
  destruct (routes_to_same_base Hroute) as (Hbase & _).
  destruct (same_base_fields Hbase) as (_ & _ & _ & _ & Hlinks & _).
  assert (Hquiet : forallb quiet pre = true).
  { destruct Hroute as (_ & r1 & o1 & o2 & Hrecv & _ & Hcall & ->).
    pose proof (receive_and_trace_spec strat sender contents r) as H.
    rewrite Hrecv in H. cbn in H. destruct H as (_ & Hq1 & _).
    rewrite forallb_app, Hq1. cbn.
    unfold call in Hcall. injection Hcall as _ <- _. apply quiet_lifted. }
  destruct (quiet_filters _ Hquiet) as [Hrep Hev].
  erewrite routes_to_processEvent by eassumption.
  rewrite <- Hlinks in Hls.
  erewrite transmit_dead; [|exact Hls|exact Halive]. rewrite Hpass.
  unfold call, pass. cbn. rewrite set_ext_same, app_nil_r.
  repeat split; auto.
Qed.
End DeadLinks.

Lemma package_for_a_dead_link_is_dropped_witness :
  let x := processEvent SimpleQRouter.strategy
             (ProcessPkgEvent 0 102%nat pkg_to_0) line_router_cut in
  x = Run (set_ext line_router_cut
             (set_reward_pending (ext line_router_cut) [(11%nat, (0, 0%nat))]))
          [SendServiceMsg 102%nat (SimpleRewardMsg 11%nat 0 100500 0%nat);
           Print (RoutesPackage (Some 1%nat) 0%nat)]
          (Ok tt)
  /\ filter is_packet_event (emitted x) = []
  /\ filter is_report (emitted x) = []
  /\ link_states (after x) = link_states line_router_cut.
Proof.
  apply (@package_for_a_dead_link_is_dropped SimpleQ SimpleQRouter.strategy
           0 102%nat pkg_to_0 0%nat line_router_cut _ _
           (route_add pkg_to_0 (Some [CNum 0; CAddr (Some 1%nat)])
                      (Some ["time"%string; "cur_node"%string]))
           (mkLinkState 0 false)).
  - apply (@routes_to_computed _ SimpleQRouter.strategy line_router_cut
             102%nat pkg_to_0 0%nat
             (route_add pkg_to_0 (Some [CNum 0; CAddr (Some 1%nat)])
                        (Some ["time"%string; "cur_node"%string])));
      reflexivity.
  - reflexivity.
  - reflexivity.
  - reflexivity.
Defined.

(** ** Link events *)

Section LinkFlags.
Context {S : Type}.
Variable strat : Strategy S.

(** [LinkBreakMsg] and [LinkRestoreMsg] set the link's [alive] flag before
    the subclass's method is called: the flag is set, and the link's
    [transfer_time] and every other link are as they were, whether that
    method returns or raises.  For a neighbour the router has no link to,
    [KeyError] is raised with the router as it was. *)
Theorem link_events_set_the_flag (r : Router S) (n : node) :
  isInitialized strat r = true ->
  (forall ls,
      Dict.lookup n (link_states r) = Some ls ->
      forall flag,
        let x := processEvent strat
                   (if flag : bool then LinkRestoreMsg n else LinkBreakMsg n) r in
        Dict.lookup n (link_states (after x))
        = Some (mkLinkState (transfer_time ls) flag)
        /\ forall m, m <> n ->
                     Dict.lookup m (link_states (after x))
                     = Dict.lookup m (link_states r))
  /\ (Dict.lookup n (link_states r) = None ->
      forall flag,
        processEvent strat
          (if flag : bool then LinkRestoreMsg n else LinkBreakMsg n) r
        = Run r [] (Raise (Builtin KeyError))).
Proof.
  intros Hinit. split.
  - intros ls Hls flag. cbv zeta. unfold processEvent. rewrite Hinit. cbn [negb].
    destruct flag; cbn [dispatch];
      unfold bind, get, builtin, subscript, put, call, ret; cbn; rewrite Hls; cbn;
      try match goal with
          | |- context [result ?x] => destruct (result x)
          end; cbn;
      (split; [apply lookup_store_same
              | intros m Hm; apply lookup_store_other; congruence]).
  - intros Hls flag. unfold processEvent. rewrite Hinit. cbn [negb].
    destruct flag; cbn [dispatch];
      unfold bind, get, builtin, subscript, put, call, raise; cbn; rewrite Hls;
      reflexivity.
Qed.

(** Handling an event never changes the router's overlord, address,
    network, inverse network, neighbour table or own actor address, and
    never removes a link. *)
Theorem processEvent_keeps_the_configuration (ev : event) (r : Router S) :
  frame r (after (processEvent strat ev r)).
Proof.
  apply (@processEvent_step_ok S strat (fun _ _ => True)); auto.
  destruct ev; cbn; repeat split; intros ?; exact I.
Qed.
End LinkFlags.

Lemma link_events_set_the_flag_witness :
  let x := processEvent SimpleQRouter.strategy (LinkRestoreMsg 2%nat) line_router in
  result x = Raise (Builtin KeyError)
  /\ Dict.lookup 2%nat (link_states (after x)) = Some (mkLinkState 0 true)
  /\ processEvent SimpleQRouter.strategy (LinkBreakMsg 5%nat) line_router
     = Run line_router [] (Raise (Builtin KeyError)).
Proof.
  destruct (@link_events_set_the_flag SimpleQ SimpleQRouter.strategy
              line_router 2%nat eq_refl) as [Hset _].
  destruct (@link_events_set_the_flag SimpleQ SimpleQRouter.strategy
              line_router 5%nat eq_refl) as [_ Hnone].
  split; [reflexivity|]. split.
  - exact (proj1 (Hset (mkLinkState 0 true) eq_refl true)).
  - exact (Hnone eq_refl false).
Defined.

(** ** Choosing the best neighbour *)

Lemma min_from_first rest : forall before after best,
  (forall x, In x before -> (snd best < snd x)%Q) ->
  (forall x, In x after -> (snd best <= snd x)%Q) ->
  exists b a,
    before ++ best :: after ++ rest = b ++ min_from best rest :: a
    /\ (forall x, In x b -> (snd (min_from best rest) < snd x)%Q)
    /\ (forall x, In x a -> (snd (min_from best rest) <= snd x)%Q).
Proof.
  induction rest as [|y rest IH]; intros before after best Hb Ha; cbn [min_from].
  - exists before, after. rewrite app_nil_r. auto.
  - destruct (Qle_bool (snd best) (snd y)) eqn:E.
    + apply Qle_bool_iff in E.
      destruct (IH before (after ++ [y]) best) as (b & a & Heq & Hlt & Hle).
      * exact Hb.
      * intros x Hx. apply in_app_or in Hx as [Hx|[<-|[]]]; auto.
      * exists b, a. split; [|auto]. rewrite <- Heq, <- !app_assoc. reflexivity.
    + assert (Hlt : (snd y < snd best)%Q).
      { destruct (Qlt_le_dec (snd y) (snd best)) as [H|H]; [exact H|].
        apply Qle_bool_iff in H. congruence. }
      destruct (IH (before ++ best :: after) [] y) as (b & a & Heq & Hlt' & Hle').
      * intros x Hx. apply in_app_or in Hx as [Hx|[<-|Hx]].
        -- apply Qlt_trans with (snd best); auto.
        -- exact Hlt.
        -- apply Qlt_le_trans with (snd best); auto.
      * intros x [].
      * exists b, a. split; [|auto]. rewrite <- Heq, <- !app_assoc. reflexivity.
Qed.

(** [dict_min] raises [ValueError] on an empty dict and only then; otherwise
    it returns the first item of least value: every item before it has a
    strictly larger value, every item after it one at least as large. *)
Theorem dict_min_is_the_first_least (row : dict Q) :
  match dict_min row with
  | Ok best =>
      exists before after,
        Dict.items row = before ++ best :: after
        /\ (forall x, In x before -> (snd best < snd x)%Q)
        /\ (forall x, In x after -> (snd best <= snd x)%Q)
  | Raise e => row = [] /\ e = ValueError
  end.
Proof.
  destruct row as [|x rest]; cbn; [auto|].
  destruct (min_from_first rest [] [] x) as (b & a & Heq & Hlt & Hle);
    try (intros ? []).
  exists b, a. auto.
Qed.

Section Routing.
Variable r : Router SimpleQ.

(** [QRouter.routePackage] on a SimpleQRouter records the state
    [(current_time, dst)] under the package's id, replacing what was
    recorded, and then returns a neighbour whose Q-value for the destination
    is least.  A destination that is not in the Q-table raises [KeyError],
    one with no neighbour [ValueError]: the state is recorded all the same. *)
Theorem routePackage_is_greedy (pkg : Package) (s : SimpleQ) :
  let recorded :=
    set_reward_pending s
      (Dict.store (id pkg) (current_time r, dst pkg) (reward_pending s)) in
  let x := SimpleQRouter.routePackage r pkg s in
  after x = recorded
  /\ emitted x = []
  /\ Dict.lookup (id pkg) (reward_pending (after x)) = Some (current_time r, dst pkg)
  /\ match Dict.lookup (dst pkg) (Qtable s) with
     | None => result x = Raise KeyError
     | Some [] => result x = Raise ValueError
     | Some row =>
         exists n q,
           result x = Ok (Some n)
           /\ In (n, q) (Dict.items row)
           /\ forall v, In v (Dict.values row) -> (q <= v)%Q
     end.
Proof.
  cbv zeta.
  unfold SimpleQRouter.routePackage, SimpleQRouter.act, SimpleQRouter.getState,
    bind, get, put, subscript, lift_outcome, ret, raise. cbn.
  destruct (Dict.lookup (dst pkg) (Qtable s)) as [row|] eqn:Hrow; cbn.
  - destruct row as [|x rest] eqn:Hr.
    + cbn. repeat split; auto using lookup_store_same.
    + destruct (@dict_min_spec (x :: rest)) as (best & Hmin & Hin & Hle);
        [discriminate|].
      rewrite Hmin. cbn. repeat split; auto using lookup_store_same.
      destruct best as [n q]. exists n, q. auto.
  - repeat split; auto using lookup_store_same.
Qed.
End Routing.

(** ** The learning update *)

(** [SimpleQRouter.observe] writes one entry of the Q-table and nothing
    else.  Where [Q[dst][neighbor]] exists and the learning rate is set, it
    returns and the entry becomes [old + learning_rate * (new_estimate -
    old)]; a missing row or entry raises [KeyError], and a learning rate
    that was never set [TypeError], the state left as it was.  Every other
    entry of the table, the pending states, the stash of broken links and
    the learning rate are never changed, and nothing is sent. *)
Theorem observe_writes_one_entry
    (s : SimpleQ) (d neighbor : node) (new_estimate : Q) :
  let x := SimpleQRouter.observe (d, neighbor, new_estimate) s in
  emitted x = []
  /\ reward_pending (after x) = reward_pending s
  /\ broken_link_Qs (after x) = broken_link_Qs s
  /\ learning_rate (after x) = learning_rate s
  /\ (forall m j, m <> d \/ j <> neighbor ->
                  Q_entry m j (Qtable (after x)) = Q_entry m j (Qtable s))
  /\ match Q_entry d neighbor (Qtable s), learning_rate s with
     | Some old, Some lr =>
         result x = Ok tt
         /\ Q_entry d neighbor (Qtable (after x))
            = Some (old + lr * (new_estimate - old))%Q
     | Some _, None => result x = Raise TypeError /\ after x = s
     | None, _ => result x = Raise KeyError /\ after x = s
     end.
Proof.
  cbv zeta.
  unfold SimpleQRouter.observe, bind, get, put, subscript, ret, raise, Q_entry.
  cbn.
  destruct (Dict.lookup d (Qtable s)) as [row|] eqn:Hrow; cbn;
    [|repeat split; reflexivity].
  destruct (Dict.lookup neighbor row) as [old|] eqn:Hold; cbn;
    [|repeat split; reflexivity].
  destruct (learning_rate s) as [lr|] eqn:Hlr; cbn;
    [|repeat split; congruence].
  repeat split; try congruence.
  - intros m j Hne. now apply Q_entry_store_other.
  - rewrite lookup_store_same. apply lookup_store_same.
Qed.

(** ** What a break or a restore may change *)

(** Between [s] and [s'] only column [v] of the Q-table and the stashes may
    differ: the pending states, the learning rate and every [Q[m][j]] with
    [j <> v] are the same. *)
Definition column (v : node) (s s' : SimpleQ) : Prop :=
  reward_pending s' = reward_pending s
  /\ learning_rate s' = learning_rate s
  /\ forall m j, j <> v -> Q_entry m j (Qtable s') = Q_entry m j (Qtable s).

Lemma column_refl v s : column v s s.
Proof. repeat split. Qed.

Lemma column_trans v s1 s2 s3 : column v s1 s2 -> column v s2 s3 -> column v s1 s3.
Proof.
  intros (A1 & B1 & C1) (A2 & B2 & C2). repeat split; try congruence.
  intros m j Hj. rewrite C2, C1; auto.
Qed.

Section Column.
Variable v : node.

Lemma set_Q_entry_column n val s :
  column v s (after (SimpleQRouter.set_Q_entry n v val s)).
Proof.
  destruct (Dict.lookup n (Qtable s)) as [row|] eqn:E.
  - erewrite set_Q_entry_present by exact E. cbn. repeat split.
    intros m j Hj. cbn. apply Q_entry_store_other; auto.
  - erewrite set_Q_entry_absent by exact E. apply column_refl.
Qed.

Lemma breakLink_loop_column ns : forall acc s,
  column v s (after (SimpleQRouter.breakLink_loop v ns acc s)).
Proof.
  induction ns as [|n ns IH]; intros acc s; [apply column_refl|].
  destruct (Q_entry n v (Qtable s)) as [val|] eqn:E.
  - unfold Q_entry in E.
    destruct (Dict.lookup n (Qtable s)) as [row|] eqn:Hrow; [|discriminate].
    erewrite breakLink_loop_step; [|exact Hrow|exact E].
    eapply column_trans; [|apply IH]. repeat split.
    intros m j Hj. cbn. apply Q_entry_store_other; auto.
  - erewrite breakLink_loop_stuck by exact E. apply column_refl.
Qed.

Lemma restore_loop_column items : forall s,
  column v s
    (after (for_each items
              (fun item => SimpleQRouter.set_Q_entry (fst item) v (snd item)) s)).
Proof.
  induction items as [|item items IH]; intros s; [apply column_refl|].
  cbn [for_each]. rewrite after_bind_any.
  destruct (result _).
  - eapply column_trans; [apply set_Q_entry_column | apply IH].
  - apply set_Q_entry_column.
Qed.

Lemma breakLink_column (r : Router SimpleQ) s :
  column v s (after (SimpleQRouter.breakLink r v s)).
Proof.
  unfold SimpleQRouter.breakLink. rewrite after_bind_any.
  pose proof (breakLink_loop_column (Dict.keys (network r)) Dict.empty s) as Hc.
  destruct (result _); [|exact Hc].
  eapply column_trans; [exact Hc|].
  unfold bind, get, put. cbn. repeat split.
Qed.

Lemma restoreLink_column s :
  column v s (after (SimpleQRouter.restoreLink v s)).
Proof.
  unfold SimpleQRouter.restoreLink.
  rewrite after_bind_any. cbn [get result after].
  rewrite after_bind_any. unfold subscript.
  destruct (Dict.lookup v (broken_link_Qs s)) as [broken_Qs|];
    cbn [ret raise result after]; [|apply column_refl].
  rewrite after_bind_any.
  pose proof (restore_loop_column (Dict.items broken_Qs) s) as Hc.
  destruct (result _); [|exact Hc].
  eapply column_trans; [exact Hc|].
  rewrite after_bind_any. cbn [get result after].
  destruct (Dict.delete v (broken_link_Qs _)) as [b|];
    cbn [put raise after]; [|apply column_refl].
  repeat split.
Qed.

(** Handling [LinkBreakMsg(v)] or [LinkRestoreMsg(v)] on a SimpleQRouter,
    whether it returns or raises, leaves the pending states, the learning
    rate and the Q-values of every other neighbour as they were. *)
Theorem link_event_touches_one_column (r : Router SimpleQ) (flag : bool) :
  let x := processEvent SimpleQRouter.strategy
             (if flag then LinkRestoreMsg v else LinkBreakMsg v) r in
  reward_pending (ext (after x)) = reward_pending (ext r)
  /\ learning_rate (ext (after x)) = learning_rate (ext r)
  /\ forall m j, j <> v ->
                 Q_entry m j (Qtable (ext (after x))) = Q_entry m j (Qtable (ext r)).
Proof.
  cbv zeta.
  apply (@processEvent_step_ok SimpleQ SimpleQRouter.strategy (column v)
           (column_refl v) (column_trans (v := v))).
  destruct flag; cbn; intros r0; unfold SimpleQRouter.on_self.
  - apply restoreLink_column.
  - apply breakLink_column.
Qed.
End Column.

(** ** What routing may change *)

(** Handling an [IncomingPkgEvent], a [ProcessPkgEvent] or an event of
    another kind on a SimpleQRouter never changes the Q-table, the stashes
    or the learning rate: routing reads the Q-table and does not learn. *)
Theorem routing_leaves_the_Q_table (ev : event) (r : Router SimpleQ) :
  (forall n, ev <> LinkBreakMsg n /\ ev <> LinkRestoreMsg n) ->
  let x := processEvent SimpleQRouter.strategy ev r in
  Qtable (ext (after x)) = Qtable (ext r)
  /\ broken_link_Qs (ext (after x)) = broken_link_Qs (ext r)
  /\ learning_rate (ext (after x)) = learning_rate (ext r).
Proof.
  intros Hev. cbv zeta.
  apply (@processEvent_step_ok SimpleQ SimpleQRouter.strategy
           (fun s s' => Qtable s' = Qtable s
                        /\ broken_link_Qs s' = broken_link_Qs s
                        /\ learning_rate s' = learning_rate s)).
  - auto.
  - intros s1 s2 s3 (A1 & B1 & C1) (A2 & B2 & C2). repeat split; congruence.
  - destruct ev as [t sd c|t sd c|n|n|]; cbn; auto.
    + split; [|split; [|split; [|split]]]; try (intros r0; cbn; auto; fail).
      * intros r0. unfold SimpleQRouter.on_self. rewrite receivePackage_keeps. auto.
      * intros pkg r0. unfold SimpleQRouter.on_self.
        destruct (routePackage_is_greedy r0 pkg (ext r0)) as (-> & _). cbn. auto.
      * intros pkg r0. cbn. auto.
    + destruct (Hev n) as [H _]. congruence.
    + destruct (Hev n) as [_ H]. congruence.
Qed.

Lemma routing_leaves_the_Q_table_witness :
  let x := processEvent SimpleQRouter.strategy
             (ProcessPkgEvent 0 100%nat pkg_to_2) line_router in
  Qtable (ext (after x)) = Qtable (ext line_router)
  /\ broken_link_Qs (ext (after x)) = broken_link_Qs (ext line_router)
  /\ learning_rate (ext (after x)) = learning_rate (ext line_router).
Proof.
  apply (@routing_leaves_the_Q_table (ProcessPkgEvent 0 100%nat pkg_to_2) line_router).
  intros n. split; discriminate.
Defined.

(** ** Pending states *)

(** No pending state of [s] is missing from [s']. *)
Definition pending_kept (s s' : SimpleQ) : Prop :=
  forall p, Dict.lookup p (reward_pending s) <> None ->
            Dict.lookup p (reward_pending s') <> None.

Lemma receiveServiceMsg_pending (r : Router SimpleQ) m sender s :
  reward_pending (after (SimpleQRouter.receiveServiceMsg r m sender s))
  = reward_pending s.
Proof.
  unfold SimpleQRouter.receiveServiceMsg, SimpleQRouter.mkSample,
    SimpleQRouter.observe, bind, get, put, emit, subscript, raise, ret.
  destruct m as [| p ct est d | p |]; cbn; try reflexivity.
  - destruct (Dict.lookup p (reward_pending s)) as [[t0 d0]|]; cbn;
      (destruct (Dict.lookup sender (network_inv r)) as [nb|]; cbn;
       [|reflexivity]);
      [|reflexivity].
    destruct (Dict.lookup d (Qtable s)) as [row|]; cbn; [|reflexivity].
    destruct (Dict.lookup nb row); cbn; [|reflexivity].
    destruct (learning_rate s); reflexivity.
  - destruct (Dict.lookup p (reward_pending s)); reflexivity.
Qed.

Lemma handle_keeps_pending i (r : Router SimpleQ) :
  pending_kept (ext r) (ext (SimpleQRouter_handle i r)).
Proof.
  destruct i as [t|ev|m sender]; cbn [SimpleQRouter_handle].
  - intros p Hp. exact Hp.
  - apply (@processEvent_step_ok SimpleQ SimpleQRouter.strategy pending_kept).
    + intros s p Hp. exact Hp.
    + intros s1 s2 s3 H12 H23 p Hp. apply H23, H12, Hp.
    + destruct ev as [t sd c|t sd c|n|n|]; cbn; auto.
      * split; [|split; [|split; [|split]]];
          try (intros r0 p Hp; exact Hp).
        -- intros r0. unfold SimpleQRouter.on_self. rewrite receivePackage_keeps.
           intros p Hp. exact Hp.
        -- intros pkg r0. unfold SimpleQRouter.on_self.
           destruct (routePackage_is_greedy r0 pkg (ext r0)) as (-> & _).
           intros p Hp. cbn. now apply store_keeps_present.
        -- intros pkg r0 p Hp. exact Hp.
      * intros r0 p Hp. unfold SimpleQRouter.on_self.
        destruct (breakLink_column n r0 (ext r0)) as (-> & _). exact Hp.
      * intros r0 p Hp. unfold SimpleQRouter.on_self.
        destruct (restoreLink_column n (ext r0)) as (-> & _). exact Hp.
  - intros p Hp. unfold SimpleQRouter.deliverServiceMsg, call, SimpleQRouter.on_self.
    cbn [after ext set_ext]. now rewrite receiveServiceMsg_pending.
Qed.

(** A pending state is never removed: once [routePackage] has recorded a
    state under a package id, the id stays in [reward_pending] whatever the
    router handles afterwards, its own reward included. *)
Theorem pending_states_are_never_removed
    (inputs : list input) (r : Router SimpleQ) (p : pkg_id) :
  Dict.lookup p (reward_pending (ext r)) <> None ->
  Dict.lookup p (reward_pending (ext (SimpleQRouter_handle_all inputs r))) <> None.
Proof.
  revert r. induction inputs as [|i inputs IH]; intros r Hp; [exact Hp|].
  change (SimpleQRouter_handle_all (i :: inputs) r)
    with (SimpleQRouter_handle_all inputs (SimpleQRouter_handle i r)).
  apply IH. now apply handle_keeps_pending.
Qed.

Lemma pending_states_are_never_removed_witness :
  Dict.lookup 7%nat
    (reward_pending
       (ext (SimpleQRouter_handle_all
               [Service (SimpleRewardMsg 7%nat 3 0 2%nat) 102%nat;
                Event (LinkBreakMsg 2%nat); Event (LinkRestoreMsg 2%nat)]
               line_router_busy)))
  <> None.
Proof.
  apply (@pending_states_are_never_removed
           [Service (SimpleRewardMsg 7%nat 3 0 2%nat) 102%nat;
            Event (LinkBreakMsg 2%nat); Event (LinkRestoreMsg 2%nat)]
           line_router_busy 7%nat).
  cbn. discriminate.
Defined.

(** A reward whose package has a pending state leaves that state in place,
    so the same reward delivered again is applied again. *)
Theorem reward_context_is_kept
    (r : Router SimpleQ) (message : service_msg) (sender : actor) :
  reward_pending (ext (after (SimpleQRouter.deliverServiceMsg message sender r)))
  = reward_pending (ext r).
Proof.
  unfold SimpleQRouter.deliverServiceMsg, call, SimpleQRouter.on_self.
  cbn [after ext set_ext]. apply receiveServiceMsg_pending.
Qed.

(** ** Broadcasting an announcement *)

(** [LinkStateRouter._broadcastAnnouncement] leaves the router's state as it
    was, and whatever it has sent when it returns or raises is the
    announcement itself, sent to the actor of a neighbour, and never to the
    sender. *)
Theorem broadcast_never_returns_to_sender
    (r : Router LinkState) (announcement : service_msg) (sender : actor)
    (s : LinkState) (a : hook_action) :
  let x := LinkStateRouter._broadcastAnnouncement r announcement sender s in
  after x = s
  /\ (In a (emitted x) ->
      exists n target,
        a = HSendServiceMsg target announcement
        /\ In n (Dict.keys (neighbors r))
        /\ Dict.lookup n (network r) = Some target
        /\ target <> sender).
Proof.
  cbv zeta. unfold LinkStateRouter._broadcastAnnouncement.
  change (for_each ?ns _) with (for_each ns (broadcast_to r announcement sender)).
  split; [apply broadcast_keeps_state|].
  induction (Dict.keys (neighbors r)) as [|n ns IH]; [intros []|].
  cbn [for_each]. rewrite emitted_bind. intros Hin.
  apply in_app_or in Hin as [Hin|Hin].
  - unfold broadcast_to, bind, subscript in Hin.
    destruct (Dict.lookup n (network r)) as [target|] eqn:E; cbn in Hin; [|tauto].
    destruct (Nat.eqb_spec sender target) as [->|Hne]; cbn in Hin; [tauto|].
    destruct Hin as [<-|[]]. exists n, target. repeat split; auto. now left.
  - destruct (result _); [|destruct Hin].
    rewrite broadcast_to_keeps_state in Hin.
    destruct (IH Hin) as (k & target & -> & Hk & Hnet & Hne).
    exists k, target. repeat split; auto. now right.
Qed.

Lemma broadcast_never_returns_to_sender_witness :
  let x := LinkStateRouter._broadcastAnnouncement ls_router announcement_of_0
             100%nat (ext ls_router) in
  after x = ext ls_router
  /\ (In (HSendServiceMsg 102%nat announcement_of_0) (emitted x) ->
      exists n target,
        HSendServiceMsg 102%nat announcement_of_0
        = HSendServiceMsg target announcement_of_0
        /\ In n (Dict.keys (neighbors ls_router))
        /\ Dict.lookup n (network ls_router) = Some target
        /\ target <> 100%nat).
Proof.
  exact (@broadcast_never_returns_to_sender ls_router announcement_of_0 100%nat
           (ext ls_router) (HSendServiceMsg 102%nat announcement_of_0)).
Defined.

(** ** Helpers *)

Lemma to_uint_nonnil (k : nat) : Nat.to_uint k <> Decimal.Nil.
Proof.
  rewrite <- (DecimalNat.Unsigned.of_to k) at 1.
  rewrite DecimalNat.Unsigned.to_of. apply DecimalFacts.unorm_nonnil.
Qed.

Lemma py_str_injective (k k' : nat) : py_str k = py_str k' -> k = k'.
Proof.
  unfold py_str. intros H.
  apply (f_equal DecimalString.NilZero.uint_of_string) in H.
  rewrite !DecimalString.NilZero.usu in H by apply to_uint_nonnil.
  injection H as H. now apply DecimalNat.Unsigned.to_uint_inj.
Qed.

Lemma append_injective (s a b : string) :
  String.append s a = String.append s b -> a = b.
Proof.
  induction s as [|c s IH]; cbn; intros H; [exact H|].
  injection H as H. auto.
Qed.

(** [mk_num_list(s, n)] has [max(n, 0)] entries, the [k]-th being [s]
    followed by the decimal digits of [k], and no two entries are equal. *)
Theorem mk_num_list_names (s : string) (n : Z) :
  List.length (mk_num_list s n) = Z.to_nat n
  /\ (forall k, (k < Z.to_nat n)%nat ->
                nth_error (mk_num_list s n) k = Some (String.append s (py_str k)))
  /\ NoDup (mk_num_list s n).
Proof.
  unfold mk_num_list. split; [|split].
  - now rewrite length_map, length_seq.
  - intros k Hk. rewrite nth_error_map, nth_error_seq.
    destruct (Nat.ltb_spec k (Z.to_nat n)) as [_|H]; [reflexivity | lia].
  - generalize (seq_NoDup (Z.to_nat n) 0).
    induction (seq 0 (Z.to_nat n)) as [|k ks IH]; intros Hnd; cbn; constructor.
    + inversion Hnd as [|? ? Hnotin _]; subst. intros Hin.
      apply in_map_iff in Hin as (k' & Heq & Hk').
      apply append_injective, py_str_injective in Heq. now subst.
    + inversion Hnd; auto.
Qed.

Lemma length_write i x res : List.length (write i x res) = List.length res.
Proof.
  revert i. induction res as [|y res IH]; intros [|i]; cbn; auto.
Qed.

Lemma nth_write i x res j :
  (i < List.length res)%nat ->
  nth j (write i x res) 0%Q = if Nat.eqb i j then x else nth j res 0%Q.
Proof.
  revert i j. induction res as [|y res IH]; intros [|i] [|j] Hi; cbn in *;
    try lia; try reflexivity.
  apply IH. lia.
Qed.

Lemma np_index_valid len p i :
  np_index len p = Ok i -> (i < len)%nat.
Proof.
  unfold np_index.
  destruct ((0 <=? p) && (p <? Z.of_nat len))%Z eqn:E1.
  - intros [= <-]. apply andb_prop in E1 as [H1 H2].
    apply Z.leb_le in H1. apply Z.ltb_lt in H2. lia.
  - destruct ((- Z.of_nat len <=? p) && (p <? 0))%Z eqn:E2; [|discriminate].
    intros [= <-]. apply andb_prop in E2 as [H1 H2].
    apply Z.leb_le in H1. apply Z.ltb_lt in H2. lia.
Qed.

Lemma np_index_in_range len p :
  (- Z.of_nat len <= p < Z.of_nat len)%Z <-> exists i, np_index len p = Ok i.
Proof.
  unfold np_index. split.
  - intros [H1 H2].
    destruct ((0 <=? p) && (p <? Z.of_nat len))%Z eqn:E1; [eauto|].
    destruct ((- Z.of_nat len <=? p) && (p <? 0))%Z eqn:E2; [eauto|].
    apply andb_false_iff in E1, E2.
    rewrite Z.leb_gt, Z.ltb_ge in E1, E2. lia.
  - intros [i H].
    destruct ((0 <=? p) && (p <? Z.of_nat len))%Z eqn:E1.
    + apply andb_prop in E1 as [H1 H2].
      apply Z.leb_le in H1. apply Z.ltb_lt in H2. lia.
    + destruct ((- Z.of_nat len <=? p) && (p <? 0))%Z eqn:E2; [|discriminate].
      apply andb_prop in E2 as [H1 H2].
      apply Z.leb_le in H1. apply Z.ltb_lt in H2. lia.
Qed.

(** Whether position [j] of an array of length [len] is named by one of the
    indices [pts]. *)
Definition marked (len : nat) (pts : list Z) (j : nat) : bool :=
  existsb (fun p => match np_index len p with
                    | Ok i => Nat.eqb i j
                    | Raise _ => false
                    end) pts.

Lemma mark_spec pts : forall res,
  (forall p, In p pts -> (- Z.of_nat (List.length res) <= p < Z.of_nat (List.length res))%Z) ->
  exists arr,
    mark res pts = Ok arr
    /\ List.length arr = List.length res
    /\ forall j, nth j arr 0%Q
                 = if marked (List.length res) pts j then 1%Q else nth j res 0%Q.
Proof.
  induction pts as [|p pts IH]; intros res Hall.
  - exists res. cbn. auto.
  - destruct (proj1 (np_index_in_range (List.length res) p)) as [i Hi];
      [apply Hall; now left|].
    pose proof (np_index_valid _ _ Hi) as Hlt.
    destruct (IH (write i 1%Q res)) as (arr & Hrun & Hlen & Hnth).
    { intros q Hq. rewrite length_write. apply Hall. now right. }
    exists arr. cbn [mark]. rewrite Hi. split; [exact Hrun|].
    rewrite length_write in Hlen, Hnth. split; [exact Hlen|].
    intros j. rewrite Hnth. cbn [marked existsb]. rewrite Hi.
    fold (marked (List.length res) pts j).
    destruct (marked (List.length res) pts j); [now rewrite orb_true_r|].
    rewrite orb_false_r. now apply nth_write.
Qed.

(** [mk_unary_arr(n, *pts)] returns when [n] is not negative and every index
    lies in [-n, n): the array then has [n] entries, 1 at the positions the
    indices name (a negative index counting from the end) and 0 elsewhere.
    A negative [n] makes [np.zeros] raise, an index out of range raises
    [IndexError]. *)
Theorem mk_unary_arr_marks_the_points (n : Z) (pts : list Z) :
  ((0 <= n)%Z ->
   (forall p, In p pts -> (- n <= p < n)%Z) ->
   exists arr,
     mk_unary_arr n pts = Ok arr
     /\ List.length arr = Z.to_nat n
     /\ forall j, (j < Z.to_nat n)%nat ->
                  nth j arr 0%Q = if marked (Z.to_nat n) pts j then 1%Q else 0%Q)
  /\ ((n < 0)%Z -> mk_unary_arr n pts = Raise NegativeDimensions)
  /\ ((0 <= n)%Z ->
      forall p rest, (p < - n \/ n <= p)%Z ->
                     mk_unary_arr n (p :: rest) = Raise IndexError).
Proof.
  unfold mk_unary_arr, np_zeros. split; [|split].
  - intros Hn Hall. destruct (Z.ltb_spec n 0) as [H|_]; [lia|].
    destruct (mark_spec pts (repeat 0%Q (Z.to_nat n))) as (arr & Hrun & Hlen & Hnth).
    { intros p Hp. rewrite repeat_length. specialize (Hall p Hp). lia. }
    rewrite repeat_length in Hlen, Hnth.
    exists arr. split; [exact Hrun|]. split; [exact Hlen|].
    intros j Hj. rewrite Hnth.
    destruct (marked (Z.to_nat n) pts j); [reflexivity|].
    apply nth_repeat_lt. exact Hj.
  - intros Hn. destruct (Z.ltb_spec n 0) as [_|H]; [reflexivity | lia].
  - intros Hn p rest Hp. destruct (Z.ltb_spec n 0) as [H|_]; [lia|].
    cbn [mark]. rewrite repeat_length.
    destruct (np_index (Z.to_nat n) p) as [i|e] eqn:E.
    + assert (H : exists i, np_index (Z.to_nat n) p = Ok i) by eauto.
      apply np_index_in_range in H. lia.
    + unfold np_index in E.
      destruct ((0 <=? p) && (p <? Z.of_nat (Z.to_nat n)))%Z; [discriminate|].
      destruct ((- Z.of_nat (Z.to_nat n) <=? p) && (p <? 0))%Z; [discriminate|].
      now injection E as <-.
Qed.

Lemma mk_unary_arr_marks_the_points_witness :
  (exists arr,
      mk_unary_arr 4 [1%Z; (-1)%Z] = Ok arr
      /\ List.length arr = Z.to_nat 4
      /\ forall j, (j < Z.to_nat 4)%nat ->
                   nth j arr 0%Q
                   = if marked (Z.to_nat 4) [1%Z; (-1)%Z] j then 1%Q else 0%Q)
  /\ mk_unary_arr 4 [1%Z; (-1)%Z] = Ok [0; 1; 0; 1]%Q
  /\ mk_unary_arr 4 [4%Z] = Raise IndexError.
Proof.
  destruct (mk_unary_arr_marks_the_points 4 [1%Z; (-1)%Z]) as (Hok & _ & _).
  destruct (mk_unary_arr_marks_the_points 4 [4%Z]) as (_ & _ & Herr).
  split; [|split].
  - apply Hok; [lia|]. intros p [<-|[<-|[]]]; lia.
  - reflexivity.
  - apply Herr; lia.
Defined.

(** ** A SimpleQRouter receiving a package *)

Lemma bind_run {St Act E A B} (m : M St Act E A) (f : A -> M St Act E B) s s1 o1 a :
  m s = Run s1 o1 (Ok a) ->
  bind m f s
  = Run (after (f a s1)) (o1 ++ emitted (f a s1)) (result (f a s1)).
Proof. intros H. unfold bind. rewrite H. reflexivity. Qed.

Lemma bind_raise {St Act E A B} (m : M St Act E A) (f : A -> M St Act E B) s s1 o1 e :
  m s = Run s1 o1 (Raise e) -> bind m f s = Run s1 o1 (Raise e).
Proof. intros H. unfold bind. rewrite H. reflexivity. Qed.

(** The row a router appends to the trace of a package it processes. *)
Definition trace_row (r : Router SimpleQ) (pkg : Package) : Package :=
  if full_log r
  then route_add pkg (Some [CNum (current_time r); CId (id pkg)])
                 (Some ["time"%string; "pkg_id"%string])
  else route_add pkg (Some [CNum (current_time r); CAddr (addr r)])
                 (Some ["time"%string; "cur_node"%string]).

(** An initialised SimpleQRouter that processes a package addressed to
    itself always succeeds: it sends the sender a reward with estimate 0,
    prints its line, reports the traced package to the overlord with the
    current time, and is left exactly as it was. *)
Theorem SimpleQRouter_delivers (r : Router SimpleQ) t sender pkg :
  Router_isInitialized r = true ->
  addr r = Some (dst pkg) ->
  processEvent SimpleQRouter.strategy (ProcessPkgEvent t sender pkg) r
  = Run r
        [SendServiceMsg sender (SimpleRewardMsg (id pkg) (current_time r) 0 (dst pkg));
         Print (RoutesPackage (addr r) (dst pkg));
         Send (overlord r)
              (mkPkgDoneMsg (current_time r) (myAddress r) (trace_row r pkg))]
        (Ok tt).
Proof.
  intros Hinit Haddr.
  assert (Hrecv : receive_and_trace SimpleQRouter.strategy sender pkg r
                  = Run r
                        [SendServiceMsg sender
                           (SimpleRewardMsg (id pkg) (current_time r) 0 (dst pkg));
                         Print (RoutesPackage (addr r) (dst pkg))]
                        (Ok (trace_row r pkg))).
  { assert (Hcall : call (receivePackage SimpleQRouter.strategy sender pkg) r
                    = Run r [SendServiceMsg sender
                               (SimpleRewardMsg (id pkg) (current_time r) 0 (dst pkg))]
                          (Ok tt)).
    { unfold call. cbn [receivePackage SimpleQRouter.strategy].
      unfold SimpleQRouter.on_self.
      erewrite receivePackage_run
        by (apply mkRewardMsg_at_destination; exact Haddr).
      cbn [after emitted result map lift_action]. now rewrite set_ext_same. }
    assert (Hdata : call (currentStateData SimpleQRouter.strategy pkg) r
                    = Run r [] (Ok (Some [CNum (current_time r); CId (id pkg)]))).
    { unfold call. cbn. now rewrite set_ext_same. }
    assert (Hcols : call (currentStateCols SimpleQRouter.strategy) r
                    = Run r [] (Ok (Some ["time"%string; "pkg_id"%string]))).
    { unfold call. cbn. now rewrite set_ext_same. }
    assert (Hrow : (if full_log r
                    then
                      data <- call (currentStateData SimpleQRouter.strategy pkg) ;;
                      cols <- call (currentStateCols SimpleQRouter.strategy) ;;
                      ret (route_add pkg data cols)
                    else
                      ret (route_add pkg
                             (Some [CNum (current_time r); CAddr (addr r)])
                             (Some ["time"%string; "cur_node"%string]))) r
                   = Run r [] (Ok (trace_row r pkg))).
    { unfold trace_row. destruct (full_log r); [|reflexivity].
      unfold bind. rewrite Hdata. cbn [result after emitted app].
      rewrite Hcols. reflexivity. }
    unfold receive_and_trace.
    erewrite bind_run; [|exact Hcall].
    erewrite bind_run; [|reflexivity].
    erewrite bind_run; [|exact Hrow].
    assert (Hdst : dst (trace_row r pkg) = dst pkg)
      by (unfold trace_row; destruct (full_log r); reflexivity).
    unfold bind, emit, ret. cbn [after emitted result app].
    now rewrite Hdst. }
  erewrite processEvent_for_me; [|exact Hinit|exact Hrecv|exact Haddr].
  reflexivity.
Qed.

Lemma SimpleQRouter_delivers_witness :
  processEvent SimpleQRouter.strategy (ProcessPkgEvent 0 100%nat pkg_to_1) line_router
  = Run line_router
        [SendServiceMsg 100%nat (SimpleRewardMsg 8%nat 0 0 1%nat);
         Print (RoutesPackage (Some 1%nat) 1%nat);
         Send (Some 999%nat)
              (mkPkgDoneMsg 0 101%nat (trace_row line_router pkg_to_1))]
        (Ok tt).
Proof.
  apply (@SimpleQRouter_delivers line_router 0 100%nat pkg_to_1); reflexivity.
Defined.

(** An initialised SimpleQRouter that processes a package for a destination
    missing from its Q-table raises [KeyError] while making the reward: the
    package gets no reward, no trace and no forwarding, and the router is as
    it was. *)
Theorem SimpleQRouter_unknown_destination (r : Router SimpleQ) t sender pkg :
  Router_isInitialized r = true ->
  addr r <> Some (dst pkg) ->
  Dict.lookup (dst pkg) (Qtable (ext r)) = None ->
  processEvent SimpleQRouter.strategy (ProcessPkgEvent t sender pkg) r
  = Run r [] (Raise (Builtin KeyError)).
Proof.
  intros Hinit Haddr Hrow.
  assert (Hrecv : SimpleQRouter.receivePackage r sender pkg (ext r)
                  = Run (ext r) [] (Raise KeyError)).
  { unfold SimpleQRouter.receivePackage, SimpleQRouter.mkRewardMsg, bind, get,
      subscript, raise. cbn.
    replace (match addr r with Some a => (a =? dst pkg)%nat | None => false end)
      with false.
    2:{ destruct (addr r) as [a|]; [|reflexivity].
        destruct (Nat.eqb_spec a (dst pkg)); congruence. }
    cbn. rewrite Hrow. reflexivity. }
  assert (Hcall : call (receivePackage SimpleQRouter.strategy sender pkg) r
                  = Run r [] (Raise (Builtin KeyError))).
  { unfold call. cbn [receivePackage SimpleQRouter.strategy].
    unfold SimpleQRouter.on_self. rewrite Hrecv.
    cbn [after emitted result map]. now rewrite set_ext_same. }
  unfold processEvent. cbn [isInitialized SimpleQRouter.strategy].
  rewrite Hinit. cbn [negb dispatch].
  erewrite bind_raise; [reflexivity|].
  unfold receive_and_trace. erewrite bind_raise; [reflexivity | exact Hcall].
Qed.

Lemma SimpleQRouter_unknown_destination_witness :
  processEvent SimpleQRouter.strategy
    (ProcessPkgEvent 0 100%nat (mkPackage 12%nat 0%nat 5%nat 1 [])) line_router
  = Run line_router [] (Raise (Builtin KeyError)).
Proof.
  apply (@SimpleQRouter_unknown_destination line_router 0 100%nat
           (mkPackage 12%nat 0%nat 5%nat 1 []));
    [reflexivity | discriminate | reflexivity].
Defined.
